(** * PIMA alarm panel protocol engine (pima_protocol.py)

    A shallow embedding of [custom_components/pima/pima_protocol.py] and of
    the constants of [const.py] it uses: the frame codec, the UDP wake
    sequence, the TCP login/command/disconnect session inside the retry
    loop, and the command facade.

    Python values are represented as follows.
    - [bytes] is [list byte]; [str] is [string].  A character of a [string]
      whose code is above 127 stands for a non-ASCII code point.
    - A call that may raise returns a [res]: [Ret v] or [Raise e].
    - Socket and clock effects run in the monad [M], which threads the local
      variable [sock] and the scripted behaviour of the network, and which
      emits the chronological list of effects performed.  Sleeps are
      recorded in milliseconds.  [settimeout] and the debug log lines have no
      effect that a caller can observe and are left out; the log lines that
      mark the course of the retry loop are kept as events.
    - The exceptions are those [except Exception] catches; interrupts of the
      interpreter are outside the model.

    The development also covers the pure helpers of [logging_utils.py] and
    the callers of the protocol handler on the Home Assistant side: the
    coordinator's poll ([__init__.py]), the entity's state and service
    methods ([alarm_control_panel.py]) and the user step of the config flow
    ([config_flow.py]). *)

From Stdlib Require Import List String Ascii NArith ZArith Bool Arith Lia.
From Stdlib Require Import Strings.Byte DecimalString.
Import ListNotations.
Local Open Scope string_scope.
Local Open Scope list_scope.

(** ** Python values and exceptions *)

Definition bytes := list byte.

Inductive exn : Type :=
| UnicodeEncodeError
| OverflowError
| IndexError
| OSError.

Inductive res (A : Type) : Type :=
| Ret (a : A)
| Raise (e : exn).
Arguments Ret {A} a.
Arguments Raise {A} e.

Definition rbind {A B} (r : res A) (k : A -> res B) : res B :=
  match r with
  | Ret a => k a
  | Raise e => Raise e
  end.

(** Python's normalisation of a slice bound against a sequence of length
    [len]: a negative bound counts from the end, and the result is clamped
    to [0 .. len]. *)
Definition slice_bound (len : nat) (i : Z) : nat :=
  let j := if (i <? 0)%Z then (i + Z.of_nat len)%Z else i in
  Nat.min len (Z.to_nat j).

(** [slice lo hi l] is [l[lo:hi]]; an omitted bound is [None]. *)
Definition slice {A} (lo hi : option Z) (l : list A) : list A :=
  let len := List.length l in
  let a := match lo with Some i => slice_bound len i | None => 0 end in
  let b := match hi with Some i => slice_bound len i | None => len end in
  firstn (b - a) (skipn a l).

Definition bytes_eqb (x y : bytes) : bool :=
  if list_eq_dec Byte.byte_eq_dec x y then true else false.

(** [bytes.startswith] and [bytes.endswith]. *)
Definition startswith (l p : bytes) : bool :=
  bytes_eqb (firstn (List.length p) l) p.

Definition endswith (l p : bytes) : bool :=
  (List.length p <=? List.length l)%nat && bytes_eqb (skipn (List.length l - List.length p) l) p.

(** [str.encode("ascii")]: raises on the first character above 127. *)
Definition is_ascii (c : ascii) : bool := (nat_of_ascii c <? 128)%nat.

Fixpoint encode_ascii (s : string) : res bytes :=
  match s with
  | EmptyString => Ret []
  | String c s' =>
      if is_ascii c
      then rbind (encode_ascii s') (fun bs => Ret (byte_of_ascii c :: bs))
      else Raise UnicodeEncodeError
  end.

(** [bytes.decode("ascii", errors="ignore")]: bytes above 127 are dropped. *)
Fixpoint decode_ascii_ignore (bs : bytes) : string :=
  match bs with
  | [] => EmptyString
  | b :: bs' =>
      if is_ascii (ascii_of_byte b)
      then String (ascii_of_byte b) (decode_ascii_ignore bs')
      else decode_ascii_ignore bs'
  end.

(** ** const.py *)

Definition COMMAND_TIMEOUT : nat := 30.
Definition RETRY_ATTEMPTS : nat := 3.

Definition STATE_DISARMED := "disarmed".
Definition STATE_ARMED_AWAY := "armed_away".
Definition STATE_ARMED_HOME := "armed_home".
Definition STATE_ARMED_NIGHT := "armed_night".

Definition PIMA_STATE_MAP : list (string * string) :=
  [ ("0", STATE_DISARMED);
    ("1", STATE_ARMED_AWAY);
    ("2", STATE_ARMED_HOME);
    ("3", STATE_ARMED_NIGHT) ].

Definition FRAME_START : bytes := [xdb].
Definition FRAME_END : bytes := [xdc].
Definition COMMAND_FLAG : bytes := [xff].

Definition UDP_KNOCKS : list bytes :=
  [ [
      x96; xb1; x35; x31; x81; x4f; x5d; x34;
      xaf; x3d; xd5; xcb; x71; x39; x9e; x38;
      x6f; x04; x4f; xd5; xc9; x52; x19; xb9;
      x1f; xb6; x6d; xe3; x3d; xe0; x70; xb7 ];
    [
      x49; x6e; xef; x27; x09; x63; x54; xc4;
      x30; xa9; x82; x6f; xa8; xfc; x45; xe3;
      x88; xa2; x4a; xdb; x5e; x78; xc1; xd6;
      x2c; xd0; xaa; x4d; x7c; xd3; x95; xfe ] ].

(** ** The CRC function *)

(** Modelled from the spec: [crcmod.predefined.mkCrcFun('xmodem')] belongs
    to the external package crcmod.  It is CRC-16/XMODEM: polynomial 0x1021,
    initial value 0, no reflection, no final xor. *)
Definition crc_shift (crc : N) : N :=
  if N.testbit crc 15
  then N.land (N.lxor (N.shiftl crc 1) 0x1021) 0xFFFF
  else N.land (N.shiftl crc 1) 0xFFFF.

Definition crc_byte (crc : N) (b : byte) : N :=
  Nat.iter 8 crc_shift (N.lxor crc (N.shiftl (Byte.to_N b) 8)).

Definition crc_func (data : bytes) : N := fold_left crc_byte data 0%N.

(** [int.to_bytes(2, byteorder="big")]: raises when the value needs more
    than two bytes. *)
Definition byte_of_N (n : N) : byte :=
  match Byte.of_N n with Some b => b | None => x00 end.

Definition to_bytes2_big (n : N) : res bytes :=
  if (n <? 65536)%N
  then Ret [byte_of_N (n / 256); byte_of_N (n mod 256)]
  else Raise OverflowError.

(** ** Frame codec *)

Definition _calculate_crc (data : bytes) : res bytes :=
  to_bytes2_big (crc_func data).

Definition _create_command (command : string) : res bytes :=
  rbind (encode_ascii command) (fun data =>
  let crc_data := COMMAND_FLAG ++ data in
  rbind (_calculate_crc crc_data) (fun crc =>
  Ret (FRAME_START ++ COMMAND_FLAG ++ data ++ crc ++ FRAME_END))).

(** The branch of [_parse_response] that tells a command-shaped frame from
    a response-shaped one and cuts the sentinels off. *)
Definition data_with_crc (response : bytes) : bytes :=
  if (2 <? List.length response)%nat && bytes_eqb (slice (Some 1%Z) (Some 2%Z) response) COMMAND_FLAG
  then slice (Some 3%Z) (Some (-1)%Z) response
  else slice (Some 1%Z) (Some (-1)%Z) response.

Definition _parse_response (response : bytes) : res (option string) :=
  if (List.length response <? 6)%nat then Ret None
  else if negb (startswith response FRAME_START && endswith response FRAME_END)
  then Ret None
  else
    let dwc := data_with_crc response in
    if (List.length dwc <? 2)%nat then Ret None
    else
      let data := slice None (Some (-2)%Z) dwc in
      let received_crc := slice (Some (-2)%Z) None dwc in
      rbind (_calculate_crc data) (fun calculated_crc =>
      if negb (bytes_eqb received_crc calculated_crc) then Ret None
      else Ret (Some (decode_ascii_ignore data))).

(** ** Python string operations used by the session and the facade *)

(** Truth value of an [Optional[str]]: [None] and the empty string are
    false. *)
Definition truthy (x : option string) : bool :=
  match x with
  | None => false
  | Some EmptyString => false
  | Some _ => true
  end.

(** [sub in s]. *)
Fixpoint contains (sub s : string) : bool :=
  prefix sub s ||
  match s with
  | EmptyString => false
  | String _ s' => contains sub s'
  end.

(** [s.split(sep)] for a non-empty [sep]: occurrences are found from the
    left and do not overlap.  [skip] counts the characters of a found
    separator still to be passed over; [cur] is the piece being built. *)
Fixpoint split_go (sep s : string) (skip : nat) (cur : string) : list string :=
  match s with
  | EmptyString => [cur]
  | String c s' =>
      match skip with
      | S k => split_go sep s' k cur
      | O =>
          if prefix sep s
          then cur :: split_go sep s' (String.length sep - 1) EmptyString
          else split_go sep s' 0 (cur ++ String c EmptyString)
      end
  end.

Definition split (sep s : string) : list string := split_go sep s 0 EmptyString.

(** [l[i]] on a list and [s[0]] on a string. *)
Definition list_index {A} (l : list A) (i : nat) : res A :=
  match nth_error l i with
  | Some a => Ret a
  | None => Raise IndexError
  end.

Definition str_index0 (s : string) : res string :=
  match s with
  | EmptyString => Raise IndexError
  | String c _ => Ret (String c EmptyString)
  end.

(** [d.get(key, default)]. *)
Fixpoint dict_get (d : list (string * string)) (key default : string) : string :=
  match d with
  | [] => default
  | (k, v) :: d' => if String.eqb k key then v else dict_get d' key default
  end.

(** ** Effects *)

(** A call to the socket layer, and what the network answered: [Ok data]
    (the data matters for [recv] only) or [Fail], a raised exception.  The
    model raises [OSError] for every failing call, whatever the class of the
    exception the real call raises ([sendto] raises [OverflowError] for a
    port above 65535, for one): the handler catches them all by
    [except Exception] and never tells the classes apart, and no statement
    below says which class a failing call raises. *)
Inductive call : Type :=
| CUdpSocket
| CUdpSendto (data : bytes) (host : string) (port : N)
| CUdpClose
| CTcpSocket (id : nat)
| CTcpConnect (id : nat) (host : string) (port : N)
| CTcpSend (id : nat) (data : bytes)
| CTcpRecv (id : nat) (bufsize : nat)
| CTcpClose (id : nat).

Inductive outcome : Type :=
| Ok (data : bytes)
| Fail.

Inductive event : Type :=
| Io (c : call) (o : outcome)
| Sleep (ms : nat)
| LogAttempt (attempt total : nat) (command : string)
| LogKnocksFailed
| LogLoginFailed (login_result : option string)
| LogExecuted (result : option string)
| LogAttemptFailed (attempt : nat)
| LogAllFailed (total : nat) (command : string).

(** The state threaded through a run: the answers the network will give to
    the coming socket calls, in order (a call made once the script is
    exhausted fails); the local variable [sock] of [_connect_and_execute];
    and the number of TCP sockets created so far, which names the next. *)
Record state : Type := mkState {
  pending : list outcome;
  sock : option nat;
  next_id : nat
}.

Definition M (A : Type) : Type := state -> res A * list event * state.

Definition ret {A} (a : A) : M A := fun s => (Ret a, [], s).

Definition raise {A} (e : exn) : M A := fun s => (Raise e, [], s).

Definition lift {A} (r : res A) : M A := fun s => (r, [], s).

Definition bind {A B} (m : M A) (k : A -> M B) : M B := fun s =>
  match m s with
  | (Ret a, t, s') => let '(r, t', s'') := k a s' in (r, t ++ t', s'')
  | (Raise e, t, s') => (Raise e, t, s')
  end.

Definition try_except {A} (m : M A) (h : exn -> M A) : M A := fun s =>
  match m s with
  | (Ret a, t, s') => (Ret a, t, s')
  | (Raise e, t, s') => let '(r, t', s'') := h e s' in (r, t ++ t', s'')
  end.

Notation "x <- m ;; k" := (bind m (fun x => k))
  (at level 61, m at next level, right associativity).
Notation "m ;; k" := (bind m (fun _ => k))
  (at level 61, right associativity).

Definition emit (ev : event) : M unit := fun s => (Ret tt, [ev], s).

Definition sleep (ms : nat) : M unit := emit (Sleep ms).

Definition io (c : call) : M bytes := fun s =>
  match pending s with
  | Ok d :: rest => (Ret d, [Io c (Ok d)], mkState rest (sock s) (next_id s))
  | Fail :: rest => (Raise OSError, [Io c Fail], mkState rest (sock s) (next_id s))
  | [] => (Raise OSError, [Io c Fail], s)
  end.

Definition get_sock : M (option nat) := fun s => (Ret (sock s), [], s).

Definition set_sock (v : option nat) : M unit := fun s =>
  (Ret tt, [], mkState (pending s) v (next_id s)).

(** [sock = socket.socket(AF_INET, SOCK_STREAM)]: the variable is assigned
    only when the call returns. *)
Definition tcp_socket : M nat := fun s =>
  let id := next_id s in
  match io (CTcpSocket id) s with
  | (Ret _, t, s') => (Ret id, t, mkState (pending s') (Some id) (S id))
  | (Raise e, t, s') => (Raise e, t, s')
  end.

(** [sock.recv(bufsize)] returns at most [bufsize] bytes. *)
Definition tcp_recv (id bufsize : nat) : M bytes :=
  d <- io (CTcpRecv id bufsize) ;; ret (firstn bufsize d).

(** ** The protocol handler *)

Record PimaProtocol : Type := mkPima {
  host : string;
  port : N;
  alarm_code : string;
  timeout : nat;
  retry_attempts : nat
}.

Definition __init__ (host : string) (port : N) (alarm_code : string) : PimaProtocol :=
  mkPima host port alarm_code COMMAND_TIMEOUT RETRY_ATTEMPTS.

Fixpoint send_knocks (self : PimaProtocol) (knocks : list bytes) : M unit :=
  match knocks with
  | [] => ret tt
  | knock :: rest =>
      io (CUdpSendto knock (host self) (port self)) ;;
      sleep 100 ;;
      send_knocks self rest
  end.

Definition _send_udp_knocks (self : PimaProtocol) : M unit :=
  try_except
    (io CUdpSocket ;;
     send_knocks self UDP_KNOCKS ;;
     io CUdpClose ;;
     ret tt)
    (fun err => emit LogKnocksFailed ;; raise err).

(** How one pass through the body of the retry loop ends: by [continue], by
    [return result], or by running off the end of the [except] clause. *)
Inductive flow : Type :=
| FContinue
| FReturn (result : option string)
| FNext.

(** The [try] block of [_connect_and_execute]. *)
Definition session (self : PimaProtocol) (command : string) (attempt : nat) : M flow :=
  emit (LogAttempt (attempt + 1) (retry_attempts self) command) ;;
  _send_udp_knocks self ;;
  sleep 1000 ;;
  id <- tcp_socket ;;
  io (CTcpConnect id (host self) (port self)) ;;
  login_cmd <- lift (_create_command ("PW=" ++ alarm_code self)) ;;
  io (CTcpSend id login_cmd) ;;
  login_response <- tcp_recv id 1024 ;;
  login_result <- lift (_parse_response login_response) ;;
  if negb (truthy login_result) ||
     negb (match login_result with Some r => contains "R=1" r | None => false end)
  then
    emit (LogLoginFailed login_result) ;;
    ret FContinue
  else
    actual_cmd <- lift (_create_command command) ;;
    io (CTcpSend id actual_cmd) ;;
    response <- tcp_recv id 1024 ;;
    result <- lift (_parse_response response) ;;
    disconnect_cmd <- lift (_create_command "DC=1") ;;
    io (CTcpSend id disconnect_cmd) ;;
    io (CTcpClose id) ;;
    emit (LogExecuted result) ;;
    ret (FReturn result).

(** The [except Exception] clause of [_connect_and_execute]. *)
Definition handler (self : PimaProtocol) (attempt : nat) (err : exn) : M flow :=
  emit (LogAttemptFailed (attempt + 1)) ;;
  sk <- get_sock ;;
  match sk with
  | Some id => try_except (io (CTcpClose id) ;; ret tt) (fun _ => ret tt)
  | None => ret tt
  end ;;
  (if (attempt <? retry_attempts self - 1)%nat then sleep 2000 else ret tt) ;;
  ret FNext.

(** One pass through the loop body. *)
Definition iteration (self : PimaProtocol) (command : string) (attempt : nat) : M flow :=
  set_sock None ;;
  try_except (session self command attempt) (handler self attempt).

Fixpoint for_attempts (self : PimaProtocol) (command : string) (attempts : list nat)
  : M (option string) :=
  match attempts with
  | [] =>
      emit (LogAllFailed (retry_attempts self) command) ;;
      ret None
  | attempt :: rest =>
      f <- iteration self command attempt ;;
      match f with
      | FReturn result => ret result
      | FContinue | FNext => for_attempts self command rest
      end
  end.

Definition _connect_and_execute (self : PimaProtocol) (command : string) : M (option string) :=
  for_attempts self command (seq 0 (retry_attempts self)).

(** The part of [async_get_status] after the awaited call. *)
Definition status_of_response (response : option string) : res (option string) :=
  match response with
  | None => Ret None
  | Some r =>
      if negb (truthy response) then Ret None
      else if contains "S=" r then
        rbind (list_index (split "S=" r) 1) (fun piece =>
        rbind (str_index0 piece) (fun status_code =>
        Ret (Some (dict_get PIMA_STATE_MAP status_code "unknown"))))
      else Ret (Some "unknown")
  end.

Definition async_get_status (self : PimaProtocol) : M (option string) :=
  response <- _connect_and_execute self "SS=1" ;;
  lift (status_of_response response).

(** [response is not None and marker in response]. *)
Definition acknowledged (marker : string) (response : option string) : bool :=
  match response with
  | None => false
  | Some r => contains marker r
  end.

Definition async_arm_away (self : PimaProtocol) : M bool :=
  response <- _connect_and_execute self "AR=1" ;;
  ret (acknowledged "S=1" response).

Definition async_arm_home (self : PimaProtocol) : M bool :=
  response <- _connect_and_execute self "AR=2" ;;
  ret (acknowledged "S=2" response).

Definition async_arm_night (self : PimaProtocol) : M bool :=
  response <- _connect_and_execute self "AR=3" ;;
  ret (acknowledged "S=3" response).

Definition async_disarm (self : PimaProtocol) : M bool :=
  response <- _connect_and_execute self "DA=1" ;;
  ret (acknowledged "S=0" response).

(** ** Vocabulary of the statements *)

(** The two checksum bytes, as [_calculate_crc] always returns them. *)
Definition crc_bytes (data : bytes) : bytes :=
  [byte_of_N (crc_func data / 256); byte_of_N (crc_func data mod 256)].

(** What [_parse_response] takes for the payload and for the received
    checksum of a frame. *)
Definition payload (response : bytes) : bytes :=
  slice None (Some (-2)%Z) (data_with_crc response).

Definition received_crc (response : bytes) : bytes :=
  slice (Some (-2)%Z) None (data_with_crc response).

(** [sub] occurs in [s]; [p] begins [s]. *)
Definition occurs (sub s : string) : Prop :=
  exists pre post, s = (pre ++ sub ++ post)%string.

Definition begins (p s : string) : Prop :=
  exists post, s = (p ++ post)%string.

(** The table of panel state codes, as the specification words it. *)
Definition state_of_code (d : ascii) : string :=
  if Ascii.eqb "0" d then "disarmed"
  else if Ascii.eqb "1" d then "armed_away"
  else if Ascii.eqb "2" d then "armed_home"
  else if Ascii.eqb "3" d then "armed_night"
  else "unknown".

(** The value a run returns or the exception it raises, and its effects. *)
Definition returned {A} (x : res A * list event * state) : res A := fst (fst x).

Definition effects {A} (x : res A * list event * state) : list event := snd (fst x).

(** Readings of a list of effects: the attempts started, whether an
    attempt ended in the [except] clause, the results of the command
    exchanges that were completed, the frames handed to [sock.send], the
    data of the first successful [sock.recv], and the TCP sockets created on
    which [close] has not been called since.  A socket that the interpreter
    finalises when its last reference goes is outside the model: only the
    calls the code makes are recorded. *)
Fixpoint attempts_made (t : list event) : nat :=
  match t with
  | [] => 0
  | LogAttempt _ _ _ :: t' => S (attempts_made t')
  | _ :: t' => attempts_made t'
  end.

Fixpoint failed (t : list event) : bool :=
  match t with
  | [] => false
  | LogAttemptFailed _ :: _ => true
  | _ :: t' => failed t'
  end.

Fixpoint results_logged (t : list event) : list (option string) :=
  match t with
  | [] => []
  | LogExecuted result :: t' => result :: results_logged t'
  | _ :: t' => results_logged t'
  end.

Fixpoint tcp_sends (t : list event) : list bytes :=
  match t with
  | [] => []
  | Io (CTcpSend _ data) _ :: t' => data :: tcp_sends t'
  | _ :: t' => tcp_sends t'
  end.

Fixpoint first_recv (t : list event) : option bytes :=
  match t with
  | [] => None
  | Io (CTcpRecv _ bufsize) (Ok data) :: _ => Some (firstn bufsize data)
  | _ :: t' => first_recv t'
  end.

Fixpoint open_after (opened : list nat) (t : list event) : list nat :=
  match t with
  | [] => opened
  | Io (CTcpSocket id) (Ok _) :: t' => open_after (opened ++ [id]) t'
  | Io (CTcpClose id) _ :: t' => open_after (remove Nat.eq_dec id opened) t'
  | _ :: t' => open_after opened t'
  end.

Definition open_sockets (t : list event) : list nat := open_after [] t.

Fixpoint slept (t : list event) : list nat :=
  match t with
  | [] => []
  | Sleep ms :: t' => ms :: slept t'
  | _ :: t' => slept t'
  end.

(** Concrete runs.  [panel_frame payload] is a response-shaped frame as the
    panel sends it; [fresh script] is the state before a call, with the
    network answering by [script]. *)
Definition panel_frame (payload : string) : bytes :=
  match encode_ascii payload with
  | Ret data => FRAME_START ++ data ++ crc_bytes data ++ FRAME_END
  | Raise _ => []
  end.

Definition fresh (script : list outcome) : state := mkState script None 0.

Definition panel : PimaProtocol := __init__ "192.168.1.250" 10150 "1234".

(** The four UDP calls of the wake sequence succeed. *)
Definition knocks_ok : list outcome := [Ok []; Ok []; Ok []; Ok []].

(** Connection and login exchange, the panel answering with [reply]. *)
Definition login_with (reply : bytes) : list outcome :=
  knocks_ok ++ [Ok []; Ok []; Ok []; Ok reply].

(** A refused login; an accepted login followed by a command response. *)
Definition script_refused : list outcome := login_with (panel_frame "R=0").

Definition script_answer (response : bytes) : list outcome :=
  login_with (panel_frame "R=1") ++ [Ok []; Ok response; Ok []; Ok []].

(** Effects that touch neither the TCP connection nor the attempt log. *)
Definition quiet (t : list event) : Prop :=
  attempts_made t = 0 /\ failed t = false /\ results_logged t = [] /\
  tcp_sends t = [] /\ first_recv t = None.

(** The login response fails the test of the session: it was not decoded,
    or it lacks the marker. *)
Definition login_refused (login_result : option string) : Prop :=
  login_result = None \/
  exists r, login_result = Some r /\ ~ occurs "R=1" r.

(** ** Further vocabulary and the other modules *)

(** The step of the CRC register undone, and a test of a predicate on all
    numbers below a bound. *)
Definition crc_unshift (o : N) : N :=
  if N.testbit o 0
  then N.lor (N.shiftr (N.lxor o 0x1021) 1) 0x8000
  else N.shiftr o 1.

Definition all_below (P : N -> bool) (k : N) : bool :=
  N.recursion true (fun n acc => acc && P n) k.

(** More readings of a list of effects: the datagrams handed to [sendto]
    with their destination, whether any call was made on a TCP socket, the
    number of logged login refusals, of attempts ended in the [except]
    clause, and of 2 s backoff sleeps. *)
Fixpoint udp_sent (t : list event) : list (bytes * string * N) :=
  match t with
  | [] => []
  | Io (CUdpSendto data host port) _ :: t' => (data, host, port) :: udp_sent t'
  | _ :: t' => udp_sent t'
  end.

Fixpoint tcp_touched (t : list event) : bool :=
  match t with
  | [] => false
  | Io (CTcpSocket _) _ :: _ => true
  | Io (CTcpConnect _ _ _) _ :: _ => true
  | Io (CTcpSend _ _) _ :: _ => true
  | Io (CTcpRecv _ _) _ :: _ => true
  | Io (CTcpClose _) _ :: _ => true
  | _ :: t' => tcp_touched t'
  end.

Fixpoint knocks_failed (t : list event) : bool :=
  match t with
  | [] => false
  | LogKnocksFailed :: _ => true
  | _ :: t' => knocks_failed t'
  end.

Fixpoint refusals (t : list event) : nat :=
  match t with
  | [] => 0
  | LogLoginFailed _ :: t' => S (refusals t')
  | _ :: t' => refusals t'
  end.

Fixpoint failures (t : list event) : nat :=
  match t with
  | [] => 0
  | LogAttemptFailed _ :: t' => S (failures t')
  | _ :: t' => failures t'
  end.

Fixpoint backoffs (t : list event) : nat :=
  match t with
  | [] => 0
  | Sleep ms :: t' => (if Nat.eqb ms 2000 then 1 else 0) + backoffs t'
  | _ :: t' => backoffs t'
  end.

(** Both knock datagrams with their destination. *)
Definition knock_datagrams (self : PimaProtocol) : list (bytes * string * N) :=
  map (fun knock => (knock, host self, port self)) UDP_KNOCKS.

(** The frames one pass through the loop body sends, in this order: login,
    command, disconnect. *)
Definition session_frames (self : PimaProtocol) (command : string) : list (res bytes) :=
  [_create_command ("PW=" ++ alarm_code self);
   _create_command command;
   _create_command "DC=1"].

(** Two more readings: the TCP sockets created, and the sockets on which
    [close] was called, in the order of the calls. *)
Fixpoint sockets_created (t : list event) : list nat :=
  match t with
  | [] => []
  | Io (CTcpSocket id) (Ok _) :: t' => id :: sockets_created t'
  | _ :: t' => sockets_created t'
  end.

Fixpoint close_calls (t : list event) : list nat :=
  match t with
  | [] => []
  | Io (CTcpClose id) _ :: t' => id :: close_calls t'
  | _ :: t' => close_calls t'
  end.

(** ** logging_utils.py *)

Definition SENSITIVE_PARAM_NAMES : list string :=
  ["password"; "passwd"; "pwd"; "token"; "secret"; "code"; "alarm_code"; "api_key"].

(** A logged value, as [_scrub_value] tells values apart: [bytes] or
    [bytearray] with the content; a [dict], [list], [tuple] or [set]; anything
    else.  The last two carry what Python's [repr] gives for the value. *)
Inductive value : Type :=
| VBytes (content : bytes)
| VContainer (repr : string)
| VOther (repr : string).

(** [str(n)] for a length. *)
Definition str_of_nat (n : nat) : string := NilEmpty.string_of_uint (Nat.to_uint n).

(** [short if len(short) <= 300 else short[:297] + "..."]. *)
Definition shorten (short : string) : string :=
  if (String.length short <=? 300)%nat then short
  else (substring 0 297 short ++ "...")%string.

Definition _scrub_value (v : value) : string :=
  match v with
  | VBytes content => ("<bytes len=" ++ str_of_nat (List.length content) ++ ">")%string
  | VContainer short => shorten short
  | VOther short => shorten short
  end.

(** [name in SENSITIVE_PARAM_NAMES]. *)
Definition sensitive (name : string) : bool :=
  existsb (String.eqb name) SENSITIVE_PARAM_NAMES.

(** [bound.items()] is the list of the bound arguments in their order. *)
Definition _format_args (bound : list (string * value)) : string :=
  String.concat ", "
    (map (fun item : string * value =>
            let (name, v) := item in
            if sensitive name then (name ++ "=<redacted>")%string
            else (name ++ "=" ++ _scrub_value v)%string)
         bound).

(** Two values that [_scrub_value] cannot tell apart by construction: equal
    values, or two byte strings of one length. *)
Definition alike (v w : value) : Prop :=
  v = w \/
  exists b c, v = VBytes b /\ w = VBytes c /\ List.length b = List.length c.

(** ** The Home Assistant side: __init__.py, alarm_control_panel.py,
    config_flow.py *)

(** A [dict] with string keys and values, and [d.get(key)]. *)
Definition dict : Type := list (string * string).

Fixpoint dict_lookup (d : dict) (key : string) : option string :=
  match d with
  | [] => None
  | (k, v) :: d' => if String.eqb k key then Some v else dict_lookup d' key
  end.

(** The state names imported from [homeassistant.const], kept as names. *)
Inductive ha_state : Type :=
| STATE_ALARM_DISARMED
| STATE_ALARM_ARMED_AWAY
| STATE_ALARM_ARMED_HOME
| STATE_ALARM_ARMED_NIGHT.

(** What an exception raised on this side is: [UpdateFailed] with what it
    reports (no status, or the exception caught), [CannotConnect],
    [KeyError], or an exception of the protocol handler passed on. *)
Inductive failure : Type :=
| NoStatus
| Caught (e : exn).

Inductive ha_exn : Type :=
| UpdateFailed (reported : failure)
| CannotConnect
| KeyError
| Passed (e : exn).

Inductive hres (A : Type) : Type :=
| HRet (a : A)
| HRaise (e : ha_exn).

Arguments HRet {A} a.
Arguments HRaise {A} e.

(** [PimaDataUpdateCoordinator._async_update_data]: the [UpdateFailed]
    raised in the [try] block is caught by [except Exception] as any other
    exception is, and reported in a new [UpdateFailed].  The log lines are
    left out. *)
Definition _async_update_data (protocol : PimaProtocol)
  : state -> hres dict * list event * state := fun s =>
  match async_get_status protocol s with
  | (Ret (Some status), t, s') => (HRet [("state", status)], t, s')
  | (Ret None, t, s') => (HRaise (UpdateFailed NoStatus), t, s')
  | (Raise err, t, s') => (HRaise (UpdateFailed (Caught err)), t, s')
  end.

(** The entity: the coordinator's data as the entity reads and writes it,
    and what the entity did besides the calls of the protocol handler. *)
Inductive ha_event : Type :=
| LogDebug (message : string)
| LogError (message : string)
| WriteHaState.

Record PimaAlarm : Type := mkAlarm {
  coordinator_data : option dict;
  ha_log : list ha_event
}.

Definition state_map : list (string * ha_state) :=
  [ ("disarmed", STATE_ALARM_DISARMED);
    ("armed_away", STATE_ALARM_ARMED_AWAY);
    ("armed_home", STATE_ALARM_ARMED_HOME);
    ("armed_night", STATE_ALARM_ARMED_NIGHT) ].

Fixpoint state_map_get (m : list (string * ha_state)) (key : string) : option ha_state :=
  match m with
  | [] => None
  | (k, v) :: m' => if String.eqb k key then Some v else state_map_get m' key
  end.

(** The property [PimaAlarm.state]. *)
Definition PimaAlarm_state (self : PimaAlarm) : option ha_state :=
  match coordinator_data self with
  | None => None
  | Some [] => None
  | Some data =>
      match dict_lookup data "state" with
      | Some pima_state => state_map_get state_map pima_state
      | None => None
      end
  end.

(** The body the four service methods share: the debug line, the call, and
    then the optimistic update or the error line. *)
Definition alarm_action (self : PimaAlarm) (call : M bool)
    (debug new_state error : string) : M PimaAlarm :=
  success <- call ;;
  ret (if success : bool
       then mkAlarm (Some [("state", new_state)])
                    (ha_log self ++ [LogDebug debug; WriteHaState])
       else mkAlarm (coordinator_data self)
                    (ha_log self ++ [LogDebug debug; LogError error])).

Definition async_alarm_disarm (self : PimaAlarm) (protocol : PimaProtocol) : M PimaAlarm :=
  alarm_action self (async_disarm protocol)
    "Disarming alarm" "disarmed" "Failed to disarm alarm".

Definition async_alarm_arm_away (self : PimaAlarm) (protocol : PimaProtocol) : M PimaAlarm :=
  alarm_action self (async_arm_away protocol)
    "Arming alarm (away)" "armed_away" "Failed to arm alarm (away)".

Definition async_alarm_arm_home (self : PimaAlarm) (protocol : PimaProtocol) : M PimaAlarm :=
  alarm_action self (async_arm_home protocol)
    "Arming alarm (home)" "armed_home" "Failed to arm alarm (home)".

Definition async_alarm_arm_night (self : PimaAlarm) (protocol : PimaProtocol) : M PimaAlarm :=
  alarm_action self (async_arm_night protocol)
    "Arming alarm (night)" "armed_night" "Failed to arm alarm (night)".

(** The user's input, after the schema of the form has filled it in. *)
Record user_input : Type := mkInput {
  CONF_HOST : string;
  CONF_PORT : N;
  CONF_ALARM_CODE : string;
  CONF_SCAN_INTERVAL : nat
}.

Definition validate_input (data : user_input)
  : state -> hres dict * list event * state := fun s =>
  let protocol := __init__ (CONF_HOST data) (CONF_PORT data) (CONF_ALARM_CODE data) in
  match async_get_status protocol s with
  | (Ret None, t, s') => (HRaise CannotConnect, t, s')
  | (Ret (Some _), t, s') =>
      (HRet [("title", ("PIMA Alarm (" ++ CONF_HOST data ++ ")")%string)], t, s')
  | (Raise err, t, s') => (HRaise (Passed err), t, s')
  end.

Inductive FlowResult : Type :=
| CreateEntry (title : string) (data : user_input)
| ShowForm (step_id : string) (errors : dict).

(** [PimaConfigFlow.async_step_user]; the title of [info] is read in the
    [else] clause, outside the [try].  The log line is left out. *)
Definition async_step_user (input : option user_input)
  : state -> hres FlowResult * list event * state := fun s =>
  match input with
  | None => (HRet (ShowForm "user" []), [], s)
  | Some data =>
      match validate_input data s with
      | (HRet info, t, s') =>
          match dict_lookup info "title" with
          | Some title => (HRet (CreateEntry title data), t, s')
          | None => (HRaise KeyError, t, s')
          end
      | (HRaise CannotConnect, t, s') =>
          (HRet (ShowForm "user" [("base", "cannot_connect")]), t, s')
      | (HRaise _, t, s') =>
          (HRet (ShowForm "user" [("base", "unknown")]), t, s')
      end
  end.

(** What a call on this side returned or raised. *)
Definition outcome_of {A} (x : hres A * list event * state) : hres A := fst (fst x).

(** ** Sanity checks of the embedding *)

Example crc_empty : crc_func [] = 0%N.
Proof. reflexivity. Qed.

Example crc_check_vector :
  rbind (encode_ascii "123456789") (fun d => Ret (crc_func d)) = Ret 0x31C3%N.
Proof. vm_compute. reflexivity. Qed.

(** ** The frame codec: checksum width and totality *)

Lemma crc_shift_bound (crc : N) : (crc_shift crc < 65536)%N.
Proof.
  unfold crc_shift.
  change 0xFFFF%N with (N.ones 16).
  destruct (N.testbit crc 15); rewrite N.land_ones;
    apply N.mod_lt; discriminate.
Qed.

Lemma crc_byte_bound (crc : N) (b : byte) : (crc_byte crc b < 65536)%N.
Proof. unfold crc_byte. simpl. apply crc_shift_bound. Qed.

Lemma crc_fold_bound (data : bytes) :
  forall acc, (acc < 65536)%N -> (fold_left crc_byte data acc < 65536)%N.
Proof.
  induction data as [|b data IH]; intros acc Hacc; simpl.
  - exact Hacc.
  - apply IH, crc_byte_bound.
Qed.

Lemma crc_func_bound (data : bytes) : (crc_func data < 65536)%N.
Proof. apply crc_fold_bound. reflexivity. Qed.

Lemma calculate_crc_returns (data : bytes) :
  _calculate_crc data = Ret (crc_bytes data).
Proof.
  unfold _calculate_crc, to_bytes2_big.
  pose proof (crc_func_bound data) as H.
  apply N.ltb_lt in H. rewrite H. reflexivity.
Qed.

Lemma bytes_eqb_eq (x y : bytes) : bytes_eqb x y = true <-> x = y.
Proof.
  unfold bytes_eqb. destruct (list_eq_dec Byte.byte_eq_dec x y); split;
    intros; congruence.
Qed.

Lemma bytes_eqb_neq (x y : bytes) : bytes_eqb x y = false <-> x <> y.
Proof.
  unfold bytes_eqb. destruct (list_eq_dec Byte.byte_eq_dec x y); split;
    intros; congruence.
Qed.

Lemma startswith_start (r : bytes) :
  startswith r FRAME_START = true <-> hd_error r = Some xdb.
Proof.
  unfold startswith, FRAME_START. rewrite bytes_eqb_eq.
  destruct r as [|b r]; simpl; split; intros H; congruence.
Qed.

Lemma endswith_end (r : bytes) :
  endswith r FRAME_END = true <-> hd_error (rev r) = Some xdc.
Proof.
  unfold endswith, FRAME_END.
  destruct r as [|b r _] using rev_ind.
  - simpl. split; discriminate.
  - rewrite rev_app_distr, length_app.
    replace (List.length r + List.length [b] - List.length [xdc])
      with (List.length r) by (simpl; lia).
    rewrite skipn_app, skipn_all, Nat.sub_diag.
    replace (List.length [xdc] <=? List.length r + List.length [b])%nat with true
      by (symmetry; apply Nat.leb_le; simpl; lia).
    cbn [andb app skipn rev hd_error].
    split; intros H.
    + apply bytes_eqb_eq in H. congruence.
    + apply bytes_eqb_eq. congruence.
Qed.

Lemma is_ascii_decode (bs : bytes) :
  forall c, In c (list_ascii_of_string (decode_ascii_ignore bs)) -> is_ascii c = true.
Proof.
  induction bs as [|b bs IH]; simpl; intros c Hc.
  - contradiction.
  - destruct (is_ascii (ascii_of_byte b)) eqn:E; simpl in Hc.
    + destruct Hc as [<-|Hc]; auto.
    + auto.
Qed.

(** The decoder's result, read off the checks it makes. *)
Lemma parse_response_unfold (response : bytes) :
  _parse_response response =
  if (List.length response <? 6)%nat then Ret None
  else if negb (startswith response FRAME_START && endswith response FRAME_END)
  then Ret None
  else if (List.length (data_with_crc response) <? 2)%nat then Ret None
  else if negb (bytes_eqb (received_crc response) (crc_bytes (payload response)))
  then Ret None
  else Ret (Some (decode_ascii_ignore (payload response))).
Proof.
  unfold _parse_response.
  destruct (List.length response <? 6)%nat; [reflexivity|].
  destruct (negb _); [reflexivity|].
  destruct (List.length (data_with_crc response) <? 2)%nat; [reflexivity|].
  fold (payload response). fold (received_crc response).
  rewrite calculate_crc_returns. reflexivity.
Qed.

Lemma decode_ascii_ignore_filter (bs : bytes) :
  decode_ascii_ignore bs =
  string_of_list_ascii (filter is_ascii (map ascii_of_byte bs)).
Proof.
  induction bs as [|b bs IH]; simpl.
  - reflexivity.
  - destruct (is_ascii (ascii_of_byte b)); simpl; rewrite IH; reflexivity.
Qed.

Lemma decode_ascii_ignore_length (bs : bytes) :
  String.length (decode_ascii_ignore bs) <= List.length bs.
Proof.
  induction bs as [|b bs IH]; simpl.
  - lia.
  - destruct (is_ascii (ascii_of_byte b)); simpl; lia.
Qed.

(** C10.  [_parse_response] is total: on every byte sequence it returns
    (it never raises), and what it returns is either [None] or the frame's
    payload with the bytes above 127 dropped, a string of ASCII characters
    only. *)
Theorem parse_response_total (response : bytes) :
  exists o, _parse_response response = Ret o /\
    match o with
    | None => True
    | Some s =>
        s = string_of_list_ascii
              (filter is_ascii (map ascii_of_byte (payload response))) /\
        forall c, In c (list_ascii_of_string s) -> is_ascii c = true
    end.
Proof.
  rewrite parse_response_unfold.
  repeat match goal with
         | |- context [if ?b then _ else _] => destruct b
         end;
    eexists; (split; [reflexivity|]); try exact I.
  split.
  - apply decode_ascii_ignore_filter.
  - apply is_ascii_decode.
Qed.

(** C7.  A byte sequence shorter than 6 bytes, or not starting with 0xdb,
    or not ending with 0xdc, or whose trailing two bytes differ from the
    CRC recomputed over the extracted payload, is decoded to [None]: no
    payload string comes out of it. *)
Theorem parse_rejects_malformed (response : bytes) :
  List.length response < 6 \/
  hd_error response <> Some xdb \/
  hd_error (rev response) <> Some xdc \/
  _calculate_crc (payload response) <> Ret (received_crc response) ->
  _parse_response response = Ret None.
Proof.
  intros H. rewrite parse_response_unfold.
  destruct (List.length response <? 6)%nat eqn:Hlen; [reflexivity|].
  apply Nat.ltb_ge in Hlen.
  destruct (startswith response FRAME_START) eqn:Hs; [|reflexivity].
  destruct (endswith response FRAME_END) eqn:He; [|reflexivity].
  apply startswith_start in Hs. apply endswith_end in He.
  cbn [andb negb].
  destruct (List.length (data_with_crc response) <? 2)%nat; [reflexivity|].
  destruct (bytes_eqb _ _) eqn:Hc; [|reflexivity].
  apply bytes_eqb_eq in Hc.
  rewrite calculate_crc_returns in H.
  destruct H as [H|[H|[H|H]]]; try lia; try contradiction.
  exfalso. apply H. congruence.
Qed.

(** A frame with both sentinels whose checksum bytes were zeroed. *)
Lemma parse_rejects_malformed_witness :
  _calculate_crc (payload [xdb; x53; x3d; x31; x00; x00; xdc])
    <> Ret (received_crc [xdb; x53; x3d; x31; x00; x00; xdc]) /\
  _parse_response [xdb; x53; x3d; x31; x00; x00; xdc] = Ret None.
Proof.
  assert (H : _calculate_crc (payload [xdb; x53; x3d; x31; x00; x00; xdc])
              <> Ret (received_crc [xdb; x53; x3d; x31; x00; x00; xdc]))
    by (vm_compute; discriminate).
  split; [exact H|].
  apply (parse_rejects_malformed [xdb; x53; x3d; x31; x00; x00; xdc]).
  right; right; right. exact H.
Defined.

(** *** Encoding followed by decoding *)

Lemma slice_length {A} (lo hi : option Z) (l : list A) :
  List.length (slice lo hi l) =
  match hi with Some i => slice_bound (List.length l) i | None => List.length l end -
  match lo with Some i => slice_bound (List.length l) i | None => 0 end.
Proof.
  unfold slice. rewrite length_firstn, length_skipn.
  assert (Hb : forall i, slice_bound (List.length l) i <= List.length l)
    by (intros i; unfold slice_bound; apply Nat.le_min_l).
  destruct hi as [i|]; destruct lo as [j|];
    try specialize (Hb i); try pose proof (Hb j); lia.
Qed.

Lemma data_with_crc_length (response : bytes) :
  hd_error (tl response) = Some xff ->
  List.length (data_with_crc response) = List.length response - 4.
Proof.
  intros H. unfold data_with_crc.
  destruct response as [|b0 [|b1 rest]]; try discriminate.
  simpl in H. injection H as ->.
  destruct rest as [|b2 rest].
  - reflexivity.
  - replace (2 <? List.length (b0 :: xff :: b2 :: rest))%nat with true
      by (symmetry; apply Nat.ltb_lt; simpl; lia).
    replace (bytes_eqb (slice (Some 1%Z) (Some 2%Z) (b0 :: xff :: b2 :: rest)) COMMAND_FLAG)
      with true by (symmetry; apply bytes_eqb_eq; reflexivity).
    cbn [andb]. rewrite slice_length. unfold slice_bound.
    cbn [Z.ltb Z.compare]. simpl List.length. lia.
Qed.

Lemma encode_ascii_length (s : string) (data : bytes) :
  encode_ascii s = Ret data -> List.length data = String.length s.
Proof.
  revert data. induction s as [|c s IH]; simpl; intros data H.
  - injection H as <-. reflexivity.
  - destruct (is_ascii c); [|discriminate].
    destruct (encode_ascii s) as [bs|e]; simpl in H; [|discriminate].
    injection H as <-. simpl. f_equal. apply IH. reflexivity.
Qed.

Lemma create_command_shape (command : string) (frame : bytes) :
  _create_command command = Ret frame ->
  exists data, encode_ascii command = Ret data /\
    frame = xdb :: xff :: data ++ crc_bytes (xff :: data) ++ [xdc].
Proof.
  unfold _create_command. intros H.
  destruct (encode_ascii command) as [data|e]; simpl in H; [|discriminate].
  rewrite calculate_crc_returns in H. simpl in H.
  injection H as <-. exists data. split; reflexivity.
Qed.

(** Whatever the command, decoding its own frame does not give it back. *)
Lemma roundtrip_never (command : string) :
  rbind (_create_command command) _parse_response <> Ret (Some command).
Proof.
  destruct (_create_command command) as [frame|e] eqn:Hc; simpl; [|discriminate].
  apply create_command_shape in Hc. destruct Hc as (data & Henc & ->).
  apply encode_ascii_length in Henc.
  rewrite parse_response_unfold.
  set (frame := xdb :: xff :: data ++ crc_bytes (xff :: data) ++ [xdc]).
  assert (Hlen : List.length frame = String.length command + 5).
  { unfold frame. simpl. rewrite length_app. simpl. lia. }
  repeat match goal with
         | |- context [if ?b then _ else _] => destruct b eqn:?
         end; try discriminate.
  intros H. injection H as H.
  pose proof (decode_ascii_ignore_length (payload frame)) as Hd.
  rewrite H in Hd.
  unfold payload in Hd. rewrite slice_length in Hd.
  rewrite data_with_crc_length in Hd by reflexivity.
  unfold slice_bound in Hd. cbn [Z.ltb Z.compare] in Hd.
  apply Nat.ltb_ge in Heqb.
  lia.
Qed.

(** C1.  The round trip fails on the code: the frame built for the status
    command is rejected by the decoder, and no command at all is returned
    by decoding its own frame. *)
Theorem roundtrip_fails :
  rbind (_create_command "SS=1") _parse_response = Ret None /\
  forall command,
    rbind (_create_command command) _parse_response <> Ret (Some command).
Proof.
  split.
  - vm_compute. reflexivity.
  - apply roundtrip_never.
Qed.

(** ** Strings: substring test and [split] *)

Lemma append_assoc (a b c : string) : ((a ++ b) ++ c = a ++ (b ++ c))%string.
Proof. induction a as [|x a IH]; simpl; [reflexivity | now rewrite IH]. Qed.

Lemma append_nil_r (a : string) : (a ++ "")%string = a.
Proof. induction a as [|x a IH]; simpl; [reflexivity | now rewrite IH]. Qed.

Lemma prefix_begins (p s : string) : prefix p s = true <-> begins p s.
Proof.
  revert s. induction p as [|a p IH]; intros s.
  - destruct s; simpl; split; intros _; try reflexivity; eexists; reflexivity.
  - destruct s as [|b s]; simpl.
    + split; [discriminate | intros [post H]; discriminate].
    + destruct (ascii_dec a b) as [->|Hab].
      * rewrite IH. split; intros [post H].
        -- exists post. simpl. now rewrite H.
        -- exists post. simpl in H. now injection H.
      * split; [discriminate|]. intros [post H]. simpl in H.
        injection H as H1 H2. congruence.
Qed.

Lemma contains_unfold (sub s : string) :
  contains sub s =
  prefix sub s || match s with EmptyString => false | String _ s' => contains sub s' end.
Proof. destruct s; reflexivity. Qed.

Lemma contains_occurs (sub s : string) : contains sub s = true <-> occurs sub s.
Proof.
  split.
  - induction s as [|c s IH]; rewrite contains_unfold; intros H;
      apply orb_true_iff in H; destruct H as [H|H]; try discriminate.
    + apply prefix_begins in H. destruct H as [post H]. exists EmptyString, post. exact H.
    + apply prefix_begins in H. destruct H as [post H]. exists EmptyString, post. exact H.
    + destruct (IH H) as (pre & post & ->). exists (String c pre), post. reflexivity.
  - intros (pre & post & ->). induction pre as [|c pre IH].
    + rewrite contains_unfold. apply orb_true_iff. left.
      apply prefix_begins. exists post. reflexivity.
    + simpl append. rewrite contains_unfold. apply orb_true_iff. right. exact IH.
Qed.

Lemma contains_absent (sub s : string) : contains sub s = false <-> ~ occurs sub s.
Proof.
  rewrite <- contains_occurs. destruct (contains sub s); split; intros H;
    try reflexivity; try discriminate; try congruence.
Qed.

(** The first piece [split] gives extends the piece under construction. *)
Lemma split_go_head (sep s : string) :
  forall skip cur, exists x rest, split_go sep s skip cur = (cur ++ x)%string :: rest.
Proof.
  induction s as [|c s IH]; intros skip cur; cbn [split_go].
  - exists EmptyString, []. now rewrite append_nil_r.
  - destruct skip as [|k].
    + destruct (prefix sep (String c s)).
      * exists EmptyString. eexists. rewrite append_nil_r. reflexivity.
      * destruct (IH 0 (cur ++ String c EmptyString)%string) as (x & rest & ->).
        exists (String c x), rest. f_equal. apply append_assoc.
    + apply IH.
Qed.

(** Up to the first occurrence of the separator of the status field. *)
Lemma split_first (pre rest cur : string) :
  ~ occurs "S=" (pre ++ "S") ->
  split_go "S=" (pre ++ "S=" ++ rest) 0 cur =
  (cur ++ pre)%string :: split_go "S=" rest 0 EmptyString.
Proof.
  revert cur. induction pre as [|c pre IH]; intros cur H.
  - destruct rest; simpl; now rewrite append_nil_r.
  - apply contains_absent in H.
    change (String c pre ++ "S")%string with (String c (pre ++ "S")) in H.
    rewrite contains_unfold in H.
    apply orb_false_iff in H. destruct H as [Hp Hc].
    assert (Hp' : prefix "S=" (String c (pre ++ "S=" ++ rest)) = false).
    { destruct (prefix "S=" (String c (pre ++ "S=" ++ rest))) eqn:E; [|reflexivity].
      exfalso. apply prefix_begins in E. destruct E as [post E].
      assert (Hb : begins "S=" (String c (pre ++ "S"))).
      { destruct pre as [|c' pre]; cbn [append] in E |- *.
        - injection E as E1 E2 E3. discriminate.
        - injection E as E1 E2 E3. subst c c'. exists (pre ++ "S")%string. reflexivity. }
      apply prefix_begins in Hb. congruence. }
    change (String c pre ++ "S=" ++ rest)%string
      with (String c (pre ++ "S=" ++ rest)).
    cbn [split_go]. rewrite Hp'.
    rewrite IH by (apply contains_absent; exact Hc).
    f_equal. apply append_assoc.
Qed.

Lemma dict_get_state (d : ascii) :
  dict_get PIMA_STATE_MAP (String d EmptyString) "unknown" = state_of_code d.
Proof.
  unfold PIMA_STATE_MAP, state_of_code. cbn [dict_get String.eqb].
  repeat (destruct (Ascii.eqb _ d); [reflexivity|]). reflexivity.
Qed.

(** ** The status and action results *)

Lemma status_lacking (r : string) :
  r <> EmptyString -> ~ occurs "S=" r ->
  status_of_response (Some r) = Ret (Some "unknown").
Proof.
  intros Hne Hno. apply contains_absent in Hno.
  unfold status_of_response. destruct r as [|c r]; [congruence|].
  cbn [truthy negb]. rewrite Hno. reflexivity.
Qed.

Lemma status_first_code (pre rest : string) (d : ascii) :
  ~ occurs "S=" (pre ++ "S") -> ~ begins "S=" (String d rest) ->
  status_of_response (Some (pre ++ "S=" ++ String d rest)%string) =
  Ret (Some (state_of_code d)).
Proof.
  intros Hfirst Hnext. unfold status_of_response.
  assert (Ht : truthy (Some (pre ++ "S=" ++ String d rest)%string) = true)
    by (destruct pre; reflexivity).
  rewrite Ht. cbn [negb].
  assert (Hc : contains "S=" (pre ++ "S=" ++ String d rest) = true)
    by (apply contains_occurs; exists pre, (String d rest); reflexivity).
  rewrite Hc. unfold split. rewrite split_first by exact Hfirst.
  cbn [list_index nth_error append].
  assert (Hp : prefix "S=" (String d rest) = false).
  { destruct (prefix "S=" (String d rest)) eqn:E; [|reflexivity].
    apply prefix_begins in E. contradiction. }
  cbn [split_go]. rewrite Hp. cbn [append].
  destruct (split_go_head "S=" rest 0 (String d EmptyString)) as (x & tl & ->).
  cbn [list_index nth_error append rbind str_index0].
  rewrite dict_get_state. reflexivity.
Qed.

(** C9, as the code has it.  A result that is [None] or empty gives
    [None]; a non-empty result without "S=" gives "unknown"; and a result
    whose first "S=" is followed by a character [d] that does not begin
    another "S=" gives the table's state for [d], "unknown" when [d] is not
    one of 0, 1, 2, 3. *)
Theorem status_mapping :
  (status_of_response None = Ret None /\
   status_of_response (Some EmptyString) = Ret None) /\
  (forall r, r <> EmptyString -> ~ occurs "S=" r ->
     status_of_response (Some r) = Ret (Some "unknown")) /\
  (forall pre d rest,
     ~ occurs "S=" (pre ++ "S") -> ~ begins "S=" (String d rest) ->
     status_of_response (Some (pre ++ "S=" ++ String d rest)%string) =
     Ret (Some (state_of_code d))).
Proof.
  split; [split; reflexivity|].
  split; [exact status_lacking|].
  intros pre d rest. apply status_first_code.
Qed.

Lemma not_occurs_by_test (sub s : string) : contains sub s = false -> ~ occurs sub s.
Proof. apply contains_absent. Qed.

Lemma not_begins_by_test (p s : string) : prefix p s = false -> ~ begins p s.
Proof.
  intros H Hb. apply prefix_begins in Hb. congruence.
Qed.

(** The status reply "ST,S=2": armed_home; and a reply without the field. *)
Lemma status_mapping_witness :
  status_of_response (Some "ST,S=2") = Ret (Some "armed_home") /\
  status_of_response (Some "S=9") = Ret (Some "unknown") /\
  status_of_response (Some "R=1") = Ret (Some "unknown").
Proof.
  destruct status_mapping as (_ & Hlack & Hcode).
  split; [|split].
  - apply (Hcode "ST," "2"%char EmptyString).
    + apply not_occurs_by_test. reflexivity.
    + apply not_begins_by_test. reflexivity.
  - apply (Hcode EmptyString "9"%char EmptyString).
    + apply not_occurs_by_test. reflexivity.
    + apply not_begins_by_test. reflexivity.
  - apply (Hlack "R=1").
    + discriminate.
    + apply not_occurs_by_test. reflexivity.
Defined.

(** C9 as stated fails on the empty result: it is not [None] and holds no
    "S=", yet the status is [None] and not "unknown". *)
Lemma status_mapping_counterexample :
  Some EmptyString <> None /\
  ~ occurs "S=" EmptyString /\
  status_of_response (Some EmptyString) = Ret None /\
  status_of_response (Some EmptyString) <> Ret (Some "unknown").
Proof.
  split; [discriminate|].
  split; [apply not_occurs_by_test; reflexivity|].
  split; [reflexivity|discriminate].
Qed.

(** ** Running the monad: inversion of one step *)

Lemma bind_inv {A B} (m : M A) (k : A -> M B) s r t s' :
  bind m k s = (r, t, s') ->
  (exists a t1 s1 t2,
      m s = (Ret a, t1, s1) /\ k a s1 = (r, t2, s') /\ t = t1 ++ t2) \/
  (exists e, m s = (Raise e, t, s') /\ r = Raise e).
Proof.
  unfold bind. destruct (m s) as [[[a|e] t1] s1].
  - destruct (k a s1) as [[r2 t2] s2] eqn:Hk. intros H. injection H as <- <- <-.
    left. exists a, t1, s1, t2. auto.
  - intros H. injection H as <- <- <-. right. exists e. auto.
Qed.

Lemma try_except_inv {A} (m : M A) (h : exn -> M A) s r t s' :
  try_except m h s = (r, t, s') ->
  (exists a, m s = (Ret a, t, s') /\ r = Ret a) \/
  (exists e t1 s1 t2,
      m s = (Raise e, t1, s1) /\ h e s1 = (r, t2, s') /\ t = t1 ++ t2).
Proof.
  unfold try_except. destruct (m s) as [[[a|e] t1] s1].
  - intros H. injection H as <- <- <-. left. exists a. auto.
  - destruct (h e s1) as [[r2 t2] s2] eqn:Hh. intros H. injection H as <- <- <-.
    right. exists e, t1, s1, t2. auto.
Qed.

Lemma ret_inv {A} (a : A) s r t s' :
  ret a s = (r, t, s') -> r = Ret a /\ t = [] /\ s' = s.
Proof. unfold ret. intros H. injection H as <- <- <-. auto. Qed.

Lemma raise_inv {A} (e : exn) s (r : res A) t s' :
  raise e s = (r, t, s') -> r = Raise e /\ t = [] /\ s' = s.
Proof. unfold raise. intros H. injection H as <- <- <-. auto. Qed.

Lemma lift_inv {A} (x : res A) s r t s' :
  lift x s = (r, t, s') -> r = x /\ t = [] /\ s' = s.
Proof. unfold lift. intros H. injection H as <- <- <-. auto. Qed.

Lemma emit_inv ev s r t s' :
  emit ev s = (r, t, s') -> r = Ret tt /\ t = [ev] /\ s' = s.
Proof. unfold emit. intros H. injection H as <- <- <-. auto. Qed.

Lemma io_inv c s r t s' :
  io c s = (r, t, s') ->
  (exists d, r = Ret d /\ t = [Io c (Ok d)]) \/
  (r = Raise OSError /\ t = [Io c Fail]).
Proof.
  unfold io. destruct (pending s) as [|[d|] rest]; intros H;
    injection H as <- <- <-; eauto.
Qed.

Lemma tcp_socket_inv s r t s' :
  tcp_socket s = (r, t, s') ->
  (exists d, r = Ret (next_id s) /\ t = [Io (CTcpSocket (next_id s)) (Ok d)]) \/
  (r = Raise OSError /\ t = [Io (CTcpSocket (next_id s)) Fail]).
Proof.
  unfold tcp_socket.
  destruct (io (CTcpSocket (next_id s)) s) as [[[d|e] t1] s1] eqn:Hio;
    apply io_inv in Hio; destruct Hio as [(d' & Hr & ->)|(Hr & ->)];
    try discriminate; intros H; injection H as <- <- <-; eauto.
  injection Hr as ->. auto.
Qed.

Lemma tcp_recv_inv id bufsize s r t s' :
  tcp_recv id bufsize s = (r, t, s') ->
  (exists d b, b = firstn bufsize d /\ r = Ret b /\
               t = [Io (CTcpRecv id bufsize) (Ok d)]) \/
  (r = Raise OSError /\ t = [Io (CTcpRecv id bufsize) Fail]).
Proof.
  unfold tcp_recv. intros H. apply bind_inv in H.
  destruct H as [(a & t1 & s1 & t2 & Hm & Hk & ->)|(e & Hm & ->)];
    apply io_inv in Hm; destruct Hm as [(d & Hr & ->)|(Hr & ->)];
    try discriminate.
  - apply ret_inv in Hk. destruct Hk as (-> & -> & ->).
    injection Hr as ->. left. exists d, (firstn bufsize d). auto.
  - injection Hr as ->. auto.
Qed.

(** *** Readings of a concatenation *)

Lemma attempts_made_app (a b : list event) :
  attempts_made (a ++ b) = attempts_made a + attempts_made b.
Proof. induction a as [|[] a IH]; simpl; auto. Qed.

Lemma failed_app (a b : list event) : failed (a ++ b) = failed a || failed b.
Proof. induction a as [|[] a IH]; simpl; auto. Qed.

Lemma results_logged_app (a b : list event) :
  results_logged (a ++ b) = results_logged a ++ results_logged b.
Proof. induction a as [|[] a IH]; simpl; auto. now rewrite IH. Qed.

Lemma tcp_sends_app (a b : list event) :
  tcp_sends (a ++ b) = tcp_sends a ++ tcp_sends b.
Proof.
  induction a as [|[[]| | | | | | |] a IH]; simpl; auto. now rewrite IH.
Qed.

Lemma first_recv_app (a b : list event) :
  first_recv (a ++ b) =
  match first_recv a with Some d => Some d | None => first_recv b end.
Proof.
  induction a as [|[[] []| | | | | | |] a IH]; simpl; auto.
Qed.

Create Rewrite HintDb readings.
#[local] Hint Rewrite attempts_made_app failed_app results_logged_app
  tcp_sends_app first_recv_app : readings.

(** *** Symbolic execution of a run, one call at a time *)

Lemma get_sock_inv s r t s' :
  get_sock s = (r, t, s') -> r = Ret (sock s) /\ t = [] /\ s' = s.
Proof. unfold get_sock. intros H. injection H as <- <- <-. auto. Qed.

Lemma set_sock_inv v s r t s' :
  set_sock v s = (r, t, s') -> r = Ret tt /\ t = [] /\ sock s' = v.
Proof. unfold set_sock. intros H. injection H as <- <- <-. auto. Qed.

Ltac clean_eqs :=
  repeat match goal with
         | H : _ /\ _ |- _ => destruct H
         | H : exists _, _ |- _ => destruct H
         | H : Ret _ = Ret _ |- _ => injection H as H
         | H : Raise _ = Raise _ |- _ => injection H as H
         | H : Ret _ = Raise _ |- _ => discriminate H
         | H : Raise _ = Ret _ |- _ => discriminate H
         | H : ?x = ?y |- _ => first [subst x | subst y]
         end.

Ltac inv_run H :=
  lazymatch type of H with
  | bind _ _ _ = _ =>
      let Hm := fresh "Hm" in
      let Hk := fresh "Hk" in
      apply bind_inv in H;
      destruct H as [(? & ? & ? & ? & Hm & Hk & ?)|(? & Hm & ?)];
      [inv_run Hm; inv_run Hk | inv_run Hm]
  | try_except _ _ _ = _ =>
      let Hm := fresh "Hm" in
      let Hk := fresh "Hk" in
      apply try_except_inv in H;
      destruct H as [(? & Hm & ?)|(? & ? & ? & ? & Hm & Hk & ?)];
      [inv_run Hm | inv_run Hm; inv_run Hk]
  | ret _ _ = _ => apply ret_inv in H; clean_eqs
  | raise _ _ = _ => apply raise_inv in H; clean_eqs
  | lift _ _ = _ => apply lift_inv in H; clean_eqs
  | emit _ _ = _ => apply emit_inv in H; clean_eqs
  | sleep _ _ = _ => apply emit_inv in H; clean_eqs
  | io _ _ = _ => apply io_inv in H; destruct H as [H|H]; clean_eqs
  | tcp_socket _ = _ => apply tcp_socket_inv in H; destruct H as [H|H]; clean_eqs
  | tcp_recv _ _ _ = _ => apply tcp_recv_inv in H; destruct H as [H|H]; clean_eqs
  | get_sock _ = _ => apply get_sock_inv in H; clean_eqs
  | set_sock _ _ = _ => apply set_sock_inv in H; clean_eqs
  | (if ?c then _ else _) _ = _ => destruct c eqn:?; inv_run H
  | (match ?x with Some _ => _ | None => _ end) _ = _ => destruct x eqn:?; inv_run H
  | _ => clean_eqs
  end.

Lemma knocks_quiet (self : PimaProtocol) s r t s' :
  _send_udp_knocks self s = (r, t, s') -> quiet t.
Proof.
  unfold _send_udp_knocks, UDP_KNOCKS. cbn [send_knocks]. intros H.
  inv_run H; repeat split; reflexivity.
Qed.

Ltac read_trace :=
  repeat match goal with
         | H : _send_udp_knocks _ _ = _ |- _ =>
             apply knocks_quiet in H;
             destruct H as (?Hq1 & ?Hq2 & ?Hq3 & ?Hq4 & ?Hq5)
         end;
  cbn [app attempts_made failed results_logged tcp_sends first_recv];
  autorewrite with readings;
  repeat match goal with
         | H : attempts_made _ = _ |- _ => rewrite H
         | H : failed _ = _ |- _ => rewrite H
         | H : results_logged _ = _ |- _ => rewrite H
         | H : tcp_sends _ = _ |- _ => rewrite H
         | H : first_recv _ = _ |- _ => rewrite H
         end;
  cbn [app attempts_made failed results_logged tcp_sends first_recv orb plus].

(** *** The [except] clause *)

Lemma handler_facts (self : PimaProtocol) (attempt : nat) (err : exn) s r t s' :
  handler self attempt err s = (r, t, s') ->
  r = Ret FNext /\
  attempts_made t = 0 /\ failed t = true /\ results_logged t = [] /\
  tcp_sends t = [] /\ first_recv t = None /\
  (attempt < retry_attempts self - 1 -> exists t0, t = t0 ++ [Sleep 2000]).
Proof.
  unfold handler. intros H.
  inv_run H; (repeat split; try reflexivity); intros Hlt;
    try (apply Nat.ltb_ge in Heqb; lia);
    cbn [app];
    match goal with
    | |- exists t0, ?l = _ => exists (removelast l); reflexivity
    end.
Qed.

(** *** The [try] block *)

Lemma session_log (self : PimaProtocol) (command : string) (attempt : nat) s r t s' :
  session self command attempt s = (r, t, s') ->
  attempts_made t = 1 /\ failed t = false /\
  results_logged t = match r with Ret (FReturn v) => [v] | _ => [] end.
Proof.
  unfold session. intros H.
  inv_run H; read_trace; repeat split; reflexivity.
Qed.

Lemma login_test_refused (login_result : option string) :
  negb (truthy login_result) ||
  negb (match login_result with Some r => contains "R=1" r | None => false end) = true ->
  login_refused login_result.
Proof.
  destruct login_result as [r|]; [|left; reflexivity].
  intros H. right. exists r. split; [reflexivity|].
  apply contains_absent.
  destruct r as [|c r]; [reflexivity|].
  cbn [truthy negb orb] in H. now apply negb_true_iff in H.
Qed.

Lemma login_test_accepted (login_result : option string) :
  negb (truthy login_result) ||
  negb (match login_result with Some r => contains "R=1" r | None => false end) = false ->
  exists r, login_result = Some r /\ occurs "R=1" r.
Proof.
  intros H. apply orb_false_iff in H. destruct H as [_ H].
  apply negb_false_iff in H.
  destruct login_result as [r|]; [|discriminate].
  exists r. split; [reflexivity|]. now apply contains_occurs.
Qed.

Lemma refused_not_accepted (login_result : option string) (r : string) :
  login_refused login_result -> login_result = Some r -> occurs "R=1" r -> False.
Proof.
  intros [H|(r' & H & Hno)] Hr Hocc; [congruence|].
  apply Hno. congruence.
Qed.

Lemma parse_response_returns (response : bytes) (e : exn) :
  Raise e = _parse_response response -> False.
Proof.
  rewrite parse_response_unfold.
  repeat match goal with
         | |- context [if ?b then _ else _] => destruct b
         end; discriminate.
Qed.

Lemma session_gate (self : PimaProtocol) (command : string) (attempt : nat) s r t s' :
  session self command attempt s = (r, t, s') ->
  match first_recv t with
  | Some b =>
      forall login_result,
        _parse_response b = Ret login_result -> login_refused login_result ->
        (exists f, _create_command ("PW=" ++ alarm_code self) = Ret f /\
                   tcp_sends t = [f]) /\
        r = Ret FContinue
  | None => True
  end /\
  match tcp_sends t with
  | _ :: f2 :: _ =>
      exists b r, first_recv t = Some b /\
        _parse_response b = Ret (Some r) /\ occurs "R=1" r /\
        _create_command command = Ret f2
  | _ => True
  end.
Proof.
  unfold session. intros H.
  inv_run H; read_trace; (split; [try exact I | try exact I]).
  all: try match goal with
           | H : Raise _ = _parse_response _ |- _ =>
               exfalso; exact (parse_response_returns _ _ H)
           end.
  all: try (intros lr Hp Hr;
            match goal with
            | H : Ret ?x = _parse_response _ |- _ =>
                rewrite Hp in H; injection H as ->
            end).
  all: try match goal with
           | H : _ || _ = true |- _ => apply login_test_refused in H
           | H : _ || _ = false |- _ =>
               apply login_test_accepted in H; destruct H as (str & -> & Hocc)
           end.
  all: try (exfalso; eapply refused_not_accepted; eauto; fail).
  all: try (split; [eexists; split; [symmetry; eassumption | reflexivity] | reflexivity]).
  all: try (do 2 eexists; repeat split; try reflexivity; eauto; fail).
Qed.

(** *** One pass through the loop body *)

Lemma iteration_facts (self : PimaProtocol) (command : string) (attempt : nat) s r t s' :
  iteration self command attempt s = (r, t, s') ->
  exists f, r = Ret f /\
    attempts_made t = 1 /\
    results_logged t = match f with FReturn v => [v] | _ => [] end /\
    (failed t = true ->
     f = FNext /\
     (attempt < retry_attempts self - 1 -> exists t0, t = t0 ++ [Sleep 2000])).
Proof.
  unfold iteration. intros H.
  apply bind_inv in H.
  destruct H as [(u & t1 & s1 & t2 & Hset & Hk & ->)|(e & Hset & ->)];
    apply set_sock_inv in Hset; destruct Hset as (Hr & -> & _); [|discriminate].
  apply try_except_inv in Hk.
  destruct Hk as [(f & Hs & ->)|(e & ts & s2 & th & Hs & Hh & ->)].
  - apply session_log in Hs. destruct Hs as (Ha & Hf & Hl).
    exists f. cbn [app]. repeat split; auto; congruence.
  - apply session_log in Hs. destruct Hs as (Ha & Hf & Hl).
    apply handler_facts in Hh.
    destruct Hh as (-> & Ha' & Hf' & Hl' & _ & _ & Hsleep).
    exists FNext. cbn [app]. autorewrite with readings.
    rewrite Ha, Ha', Hl, Hl'. repeat split; auto.
    intros Hlt. destruct (Hsleep Hlt) as (t0 & ->).
    exists (ts ++ t0). now rewrite app_assoc.
Qed.

Lemma iteration_gate (self : PimaProtocol) (command : string) (attempt : nat) s r t s' :
  iteration self command attempt s = (r, t, s') ->
  match first_recv t with
  | Some b =>
      forall login_result,
        _parse_response b = Ret login_result -> login_refused login_result ->
        (exists f, _create_command ("PW=" ++ alarm_code self) = Ret f /\
                   tcp_sends t = [f]) /\
        r = Ret FContinue
  | None => True
  end /\
  match tcp_sends t with
  | _ :: f2 :: _ =>
      exists b r, first_recv t = Some b /\
        _parse_response b = Ret (Some r) /\ occurs "R=1" r /\
        _create_command command = Ret f2
  | _ => True
  end.
Proof.
  unfold iteration. intros H.
  apply bind_inv in H.
  destruct H as [(u & t1 & s1 & t2 & Hset & Hk & ->)|(e & Hset & ->)];
    apply set_sock_inv in Hset; destruct Hset as (Hr & -> & _); [|discriminate].
  apply try_except_inv in Hk.
  destruct Hk as [(f & Hs & ->)|(e & ts & s2 & th & Hs & Hh & ->)].
  - apply session_gate in Hs. exact Hs.
  - apply session_gate in Hs. destruct Hs as (Hg1 & Hg2).
    apply handler_facts in Hh.
    destruct Hh as (-> & _ & _ & _ & Hsend & Hrecv & _).
    cbn [app]. autorewrite with readings. rewrite Hsend, Hrecv, app_nil_r.
    split.
    + destruct (first_recv ts) as [b|]; [|exact I].
      intros lr Hp Hrf. destruct (Hg1 lr Hp Hrf) as (_ & Hc). discriminate.
    + destruct (first_recv ts) as [b|]; exact Hg2.
Qed.

(** *** The whole loop *)

Lemma for_attempts_facts (self : PimaProtocol) (command : string) (attempts : list nat) :
  forall s r t s',
    for_attempts self command attempts s = (r, t, s') ->
    exists v, r = Ret v /\
      ((results_logged t = [] /\ v = None /\
        attempts_made t = List.length attempts) \/
       (results_logged t = [v] /\
        1 <= attempts_made t <= List.length attempts)).
Proof.
  induction attempts as [|attempt rest IH]; intros s r t s' H; cbn [for_attempts] in H.
  - inv_run H. exists None. split; [reflexivity|]. left. auto.
  - apply bind_inv in H.
    destruct H as [(f & t1 & s1 & t2 & Hi & Hk & ->)|(e & Hi & ->)];
      apply iteration_facts in Hi; destruct Hi as (f' & Hr & Ha & Hl & _);
      [|discriminate].
    injection Hr as <-. autorewrite with readings. rewrite Ha, Hl.
    destruct f as [|v|].
    + apply IH in Hk. destruct Hk as (v & -> & Hcase).
      exists v. split; [reflexivity|].
      destruct Hcase as [(Hl2 & Hv & Ha2)|(Hl2 & Ha2)];
        rewrite Hl2; cbn [app List.length];
        [left|right]; repeat split; auto; lia.
    + apply ret_inv in Hk. destruct Hk as (-> & -> & ->).
      exists v. split; [reflexivity|]. right. cbn [app List.length attempts_made].
      repeat split; auto; lia.
    + apply IH in Hk. destruct Hk as (v & -> & Hcase).
      exists v. split; [reflexivity|].
      destruct Hcase as [(Hl2 & Hv & Ha2)|(Hl2 & Ha2)];
        rewrite Hl2; cbn [app List.length];
        [left|right]; repeat split; auto; lia.
Qed.

Lemma connect_and_execute_facts (self : PimaProtocol) (command : string) s :
  exists v, returned (_connect_and_execute self command s) = Ret v /\
    ((results_logged (effects (_connect_and_execute self command s)) = [] /\
      v = None /\
      attempts_made (effects (_connect_and_execute self command s)) =
      retry_attempts self) \/
     (results_logged (effects (_connect_and_execute self command s)) = [v] /\
      1 <= attempts_made (effects (_connect_and_execute self command s))
        <= retry_attempts self)).
Proof.
  unfold _connect_and_execute.
  destruct (for_attempts self command (seq 0 (retry_attempts self)) s)
    as [[r t] s'] eqn:H.
  apply for_attempts_facts in H. rewrite length_seq in H.
  exact H.
Qed.

(** ** Properties of the session attempt and of the retry loop *)

(** C6.  In a session attempt whose login response is not decoded or lacks
    "R=1", the only frame handed to [sock.send] is the login frame and the
    attempt yields no result; and when a second frame is sent at all, it is
    the command frame and the login response contained "R=1". *)
Theorem login_gating (self : PimaProtocol) (command : string) (attempt : nat) s r t s' :
  iteration self command attempt s = (r, t, s') ->
  (forall b login_result,
      first_recv t = Some b ->
      _parse_response b = Ret login_result ->
      login_refused login_result ->
      (exists f, _create_command ("PW=" ++ alarm_code self) = Ret f /\
                 tcp_sends t = [f]) /\
      r = Ret FContinue) /\
  (forall f1 f2 rest,
      tcp_sends t = f1 :: f2 :: rest ->
      exists b r, first_recv t = Some b /\
        _parse_response b = Ret (Some r) /\ occurs "R=1" r /\
        _create_command command = Ret f2).
Proof.
  intros H. apply iteration_gate in H. destruct H as (Hg1 & Hg2). split.
  - intros b lr Hb Hp Hr. rewrite Hb in Hg1. exact (Hg1 lr Hp Hr).
  - intros f1 f2 rest Hs. rewrite Hs in Hg2. exact Hg2.
Qed.

(** The panel answers the login with "R=0": one frame is sent. *)
Lemma login_gating_witness :
  (exists f, _create_command ("PW=" ++ alarm_code panel) = Ret f /\
     tcp_sends (effects (iteration panel "SS=1" 0 (fresh script_refused))) = [f]) /\
  returned (iteration panel "SS=1" 0 (fresh script_refused)) = Ret FContinue.
Proof.
  refine (proj1 (login_gating panel "SS=1" 0 (fresh script_refused)
                   (returned (iteration panel "SS=1" 0 (fresh script_refused)))
                   (effects (iteration panel "SS=1" 0 (fresh script_refused)))
                   (snd (iteration panel "SS=1" 0 (fresh script_refused))) _)
                (panel_frame "R=0") (Some "R=0") _ _ _).
  - vm_compute. reflexivity.
  - vm_compute. reflexivity.
  - vm_compute. reflexivity.
  - right. exists "R=0". split; [reflexivity|].
    apply not_occurs_by_test. reflexivity.
Defined.

(** C5, as the code has it.  With [retry_attempts = 3], when no attempt
    completes the command exchange (each one raises or has its login
    refused), exactly 3 attempts are made and the result is [None]. *)
Theorem retry_bound (host : string) (port : N) (alarm_code command : string) s :
  results_logged
    (effects (_connect_and_execute (__init__ host port alarm_code) command s)) = [] ->
  attempts_made
    (effects (_connect_and_execute (__init__ host port alarm_code) command s)) = 3 /\
  returned (_connect_and_execute (__init__ host port alarm_code) command s) = Ret None.
Proof.
  intros H.
  destruct (connect_and_execute_facts (__init__ host port alarm_code) command s)
    as (v & Hv & [(_ & -> & Ha)|(Hr & _)]).
  - split; [exact Ha | exact Hv].
  - rewrite H in Hr. discriminate.
Qed.

(** The network is dead: every socket call raises. *)
Lemma retry_bound_witness :
  attempts_made
    (effects (_connect_and_execute (__init__ "192.168.1.250" 10150 "1234") "SS=1"
                (fresh []))) = 3 /\
  returned (_connect_and_execute (__init__ "192.168.1.250" 10150 "1234") "SS=1"
              (fresh [])) = Ret None.
Proof.
  apply (retry_bound "192.168.1.250" 10150 "1234" "SS=1" (fresh [])).
  vm_compute. reflexivity.
Defined.

(** C5 as stated fails: the one attempt made produces no result (its
    response is not decoded), and the call returns [None] after that single
    attempt, not after 3. *)
Lemma retry_bound_counterexample :
  retry_attempts panel = 3 /\
  results_logged (effects (_connect_and_execute panel "SS=1" (fresh (script_answer [xdb; xdc]))))
    = [None] /\
  returned (_connect_and_execute panel "SS=1" (fresh (script_answer [xdb; xdc]))) = Ret None /\
  attempts_made (effects (_connect_and_execute panel "SS=1" (fresh (script_answer [xdb; xdc]))))
    = 1 /\
  attempts_made (effects (_connect_and_execute panel "SS=1" (fresh (script_answer [xdb; xdc]))))
    <> 3.
Proof. vm_compute. repeat split; try reflexivity. discriminate. Qed.

(** ** Properties of the command facade *)

Lemma acknowledged_spec (marker : string) (response : option string) :
  acknowledged marker response = true <->
  exists r, response = Some r /\ occurs marker r.
Proof.
  destruct response as [r|]; cbn [acknowledged].
  - rewrite contains_occurs. split.
    + intros H. exists r. auto.
    + intros (r' & Hr & H). injection Hr as ->. exact H.
  - split; [discriminate|]. intros (r & Hr & _). discriminate.
Qed.

Lemma action_returns (self : PimaProtocol) (command marker : string) s :
  exists b,
    returned ((response <- _connect_and_execute self command ;;
               ret (acknowledged marker response)) s) = Ret b /\
    (b = true <->
     exists r, returned (_connect_and_execute self command s) = Ret (Some r) /\
               occurs marker r).
Proof.
  destruct (connect_and_execute_facts self command s) as (v & Hv & _).
  unfold bind.
  destruct (_connect_and_execute self command s) as [[r t] s'].
  cbn [returned fst] in Hv. subst r. cbn [ret returned fst].
  exists (acknowledged marker v). split; [reflexivity|].
  rewrite acknowledged_spec. split.
  - intros (r & -> & H). exists r. auto.
  - intros (r & Hr & H). injection Hr as ->. exists r. auto.
Qed.

(** C8.  Each action returns a boolean, never raising, and it is [True]
    exactly when the result of the retry loop is a string in which the
    expected marker occurs: "S=1" for arm-away, "S=2" for arm-home, "S=3"
    for arm-night, "S=0" for disarm. *)
Theorem action_result_mapping (self : PimaProtocol) s :
  (exists b, returned (async_arm_away self s) = Ret b /\
     (b = true <->
      exists r, returned (_connect_and_execute self "AR=1" s) = Ret (Some r) /\
                occurs "S=1" r)) /\
  (exists b, returned (async_arm_home self s) = Ret b /\
     (b = true <->
      exists r, returned (_connect_and_execute self "AR=2" s) = Ret (Some r) /\
                occurs "S=2" r)) /\
  (exists b, returned (async_arm_night self s) = Ret b /\
     (b = true <->
      exists r, returned (_connect_and_execute self "AR=3" s) = Ret (Some r) /\
                occurs "S=3" r)) /\
  (exists b, returned (async_disarm self s) = Ret b /\
     (b = true <->
      exists r, returned (_connect_and_execute self "DA=1" s) = Ret (Some r) /\
                occurs "S=0" r)).
Proof.
  repeat split; apply action_returns.
Qed.

Example arm_away_acknowledged :
  returned (async_arm_away panel (fresh (script_answer (panel_frame "AR,S=1")))) = Ret true.
Proof. vm_compute. reflexivity. Qed.

Example arm_away_not_acknowledged :
  returned (async_arm_away panel (fresh (script_answer (panel_frame "AR,S=0")))) = Ret false.
Proof. vm_compute. reflexivity. Qed.

(** C3.  The status query raises on a decodable response: with the payload
    "S=" the text after the marker is empty and indexing it raises
    [IndexError], which nothing catches. *)
Theorem get_status_raises :
  _parse_response (panel_frame "S=") = Ret (Some "S=") /\
  status_of_response (Some "S=") = Raise IndexError /\
  returned (async_get_status panel (fresh (script_answer (panel_frame "S="))))
    = Raise IndexError.
Proof. vm_compute. repeat split; reflexivity. Qed.

(** The same happens when another "S=" follows the first at once. *)
Example get_status_raises_doubled :
  status_of_response (Some "S=S=1") = Raise IndexError.
Proof. reflexivity. Qed.

(** ** More on the frame codec *)

Lemma slice_inner {A} (x y : A) (m : list A) :
  slice (Some 1%Z) (Some (-1)%Z) (x :: m ++ [y]) = m.
Proof.
  unfold slice, slice_bound. cbn [Z.ltb Z.compare].
  replace (List.length (x :: m ++ [y])) with (S (S (List.length m)))
    by (simpl; rewrite length_app; simpl; lia).
  replace (Nat.min (S (S (List.length m))) (Z.to_nat 1)) with 1 by lia.
  replace (Nat.min (S (S (List.length m)))
             (Z.to_nat (-1 + Z.of_nat (S (S (List.length m))))))
    with (S (List.length m)) by lia.
  cbn [skipn]. replace (S (List.length m) - 1) with (List.length m) by lia.
  rewrite firstn_app, firstn_all, Nat.sub_diag. cbn [firstn]. apply app_nil_r.
Qed.

Lemma slice_second {A} (x y : A) (rest : list A) :
  slice (Some 1%Z) (Some 2%Z) (x :: y :: rest) = [y].
Proof.
  unfold slice, slice_bound. cbn [Z.ltb Z.compare List.length].
  replace (Nat.min (S (S (List.length rest))) (Z.to_nat 1)) with 1 by lia.
  replace (Nat.min (S (S (List.length rest))) (Z.to_nat 2)) with 2 by lia.
  reflexivity.
Qed.

Lemma slice_before_crc {A} (x y : A) (m : list A) :
  slice None (Some (-2)%Z) (m ++ [x; y]) = m.
Proof.
  unfold slice, slice_bound. cbn [Z.ltb Z.compare].
  rewrite length_app. cbn [List.length skipn].
  replace (Nat.min (List.length m + 2) (Z.to_nat (-2 + Z.of_nat (List.length m + 2))) - 0)
    with (List.length m) by lia.
  rewrite firstn_app, firstn_all, Nat.sub_diag. cbn [firstn]. apply app_nil_r.
Qed.

Lemma slice_crc {A} (x y : A) (m : list A) :
  slice (Some (-2)%Z) None (m ++ [x; y]) = [x; y].
Proof.
  unfold slice, slice_bound. cbn [Z.ltb Z.compare].
  rewrite length_app. cbn [List.length].
  replace (Nat.min (List.length m + 2) (Z.to_nat (-2 + Z.of_nat (List.length m + 2))))
    with (List.length m) by lia.
  rewrite skipn_app, skipn_all, Nat.sub_diag. cbn [skipn app].
  replace (List.length m + 2 - List.length m) with 2 by lia. reflexivity.
Qed.

Lemma crc_bytes_pair (data : bytes) :
  exists hi lo, crc_bytes data = [hi; lo].
Proof. unfold crc_bytes. eauto. Qed.

(** A frame of the response shape: sentinels around data and checksum. *)
Lemma response_frame_decodes (data crc : bytes) :
  2 <= List.length data -> hd_error data <> Some xff ->
  List.length crc = 2 ->
  _parse_response (FRAME_START ++ data ++ crc ++ FRAME_END) =
  if bytes_eqb crc (crc_bytes data)
  then Ret (Some (decode_ascii_ignore data))
  else Ret None.
Proof.
  intros Hlen Hflag Hcrc.
  destruct crc as [|hi [|lo [|]]]; try discriminate. clear Hcrc.
  pose (frame := xdb :: data ++ [hi; lo] ++ [xdc]).
  change (FRAME_START ++ data ++ [hi; lo] ++ FRAME_END) with frame.
  rewrite parse_response_unfold.
  assert (Hf : frame = xdb :: (data ++ [hi; lo]) ++ [xdc])
    by (unfold frame; now rewrite <- app_assoc).
  assert (Hl : List.length frame = List.length data + 4)
    by (unfold frame; simpl; rewrite length_app; simpl; lia).
  replace (List.length frame <? 6)%nat with false
    by (symmetry; apply Nat.ltb_ge; lia).
  assert (Hs : startswith frame [xdb] = true)
    by (apply startswith_start; reflexivity).
  assert (He : endswith frame [xdc] = true).
  { apply endswith_end. rewrite Hf.
    change (xdb :: (data ++ [hi; lo]) ++ [xdc])
      with ((xdb :: data ++ [hi; lo]) ++ [xdc]).
    rewrite rev_app_distr. reflexivity. }
  change FRAME_START with [xdb]. change FRAME_END with [xdc].
  rewrite Hs, He. cbn [andb negb].
  assert (Hd : data_with_crc frame = data ++ [hi; lo]).
  { unfold data_with_crc.
    replace (bytes_eqb (slice (Some 1%Z) (Some 2%Z) frame) COMMAND_FLAG) with false.
    - rewrite andb_false_r, Hf. apply slice_inner.
    - symmetry. apply bytes_eqb_neq. unfold frame.
      destruct data as [|b data]; [simpl in Hlen; lia|].
      intros H. apply Hflag. cbn [app] in H. rewrite slice_second in H.
      unfold COMMAND_FLAG in H. simpl. congruence. }
  unfold payload, received_crc. rewrite Hd.
  replace (List.length (data ++ [hi; lo]) <? 2)%nat with false
    by (symmetry; apply Nat.ltb_ge; rewrite length_app; simpl; lia).
  rewrite slice_before_crc, slice_crc.
  destruct (bytes_eqb [hi; lo] (crc_bytes data)); reflexivity.
Qed.

Lemma encode_ascii_bytes (p : string) (data : bytes) :
  encode_ascii p = Ret data ->
  data = map byte_of_ascii (list_ascii_of_string p) /\
  forallb is_ascii (list_ascii_of_string p) = true.
Proof.
  revert data. induction p as [|c p IH]; simpl; intros data H.
  - injection H as <-. auto.
  - destruct (is_ascii c) eqn:Hc; [|discriminate].
    destruct (encode_ascii p) as [bs|e]; simpl in H; [|discriminate].
    injection H as <-. destruct (IH bs eq_refl) as (-> & Hall).
    rewrite Hall. auto.
Qed.

Lemma encode_ascii_ascii (p : string) :
  forallb is_ascii (list_ascii_of_string p) = true ->
  encode_ascii p = Ret (map byte_of_ascii (list_ascii_of_string p)).
Proof.
  induction p as [|c p IH]; simpl; intros H.
  - reflexivity.
  - apply andb_true_iff in H. destruct H as (Hc & Hp).
    rewrite Hc, (IH Hp). reflexivity.
Qed.

Lemma encode_ascii_raises (p : string) :
  forallb is_ascii (list_ascii_of_string p) = false ->
  encode_ascii p = Raise UnicodeEncodeError.
Proof.
  induction p as [|c p IH]; simpl; intros H.
  - discriminate.
  - destruct (is_ascii c); [|reflexivity].
    simpl in H. rewrite (IH H). reflexivity.
Qed.

Lemma decode_encode (p : string) (data : bytes) :
  encode_ascii p = Ret data -> decode_ascii_ignore data = p.
Proof.
  revert data. induction p as [|c p IH]; simpl; intros data H.
  - injection H as <-. reflexivity.
  - destruct (is_ascii c) eqn:Hc; [|discriminate].
    destruct (encode_ascii p) as [bs|e]; simpl in H; [|discriminate].
    injection H as <-. simpl. rewrite ascii_of_byte_of_ascii, Hc.
    f_equal. apply IH. reflexivity.
Qed.

Lemma encode_ascii_no_flag (p : string) (data : bytes) :
  encode_ascii p = Ret data -> hd_error data <> Some xff.
Proof.
  destruct p as [|c p]; simpl; intros H.
  - injection H as <-. discriminate.
  - destruct (is_ascii c) eqn:Hc; [|discriminate].
    destruct (encode_ascii p) as [bs|e]; simpl in H; [|discriminate].
    injection H as <-. simpl. intros Hff. injection Hff as Hff.
    apply (f_equal ascii_of_byte) in Hff.
    rewrite ascii_of_byte_of_ascii in Hff. subst c. discriminate.
Qed.

(** X1.  A response frame (start sentinel, ASCII text of at least two
    characters, its CRC, end sentinel) decodes to that text. *)
Theorem response_roundtrip (p : string) (data : bytes) :
  encode_ascii p = Ret data ->
  2 <= String.length p ->
  _parse_response (FRAME_START ++ data ++ crc_bytes data ++ FRAME_END) = Ret (Some p).
Proof.
  intros Henc Hlen.
  rewrite response_frame_decodes.
  - replace (bytes_eqb (crc_bytes data) (crc_bytes data)) with true
      by (symmetry; apply bytes_eqb_eq; reflexivity).
    now rewrite (decode_encode _ _ Henc).
  - rewrite (encode_ascii_length _ _ Henc). exact Hlen.
  - exact (encode_ascii_no_flag _ _ Henc).
  - reflexivity.
Qed.

Lemma response_roundtrip_witness :
  _parse_response (FRAME_START ++ [x53; x3d; x31] ++ crc_bytes [x53; x3d; x31] ++ FRAME_END)
  = Ret (Some "S=1").
Proof.
  apply (response_roundtrip "S=1" [x53; x3d; x31]).
  - reflexivity.
  - simpl. lia.
Defined.

Lemma short_frame_none (data crc : bytes) :
  List.length data < 2 -> List.length crc = 2 ->
  _parse_response (FRAME_START ++ data ++ crc ++ FRAME_END) = Ret None.
Proof.
  intros Hd Hc. rewrite parse_response_unfold.
  replace (List.length (FRAME_START ++ data ++ crc ++ FRAME_END) <? 6)%nat with true.
  - reflexivity.
  - symmetry. apply Nat.ltb_lt. unfold FRAME_START, FRAME_END.
    rewrite !length_app. simpl. lia.
Qed.

(** X2.  A frame whose data part is shorter than two bytes is rejected,
    whatever its checksum: with one data byte the frame has five bytes. *)
Theorem short_payload_rejected (data crc : bytes) :
  List.length data < 2 -> List.length crc = 2 ->
  _parse_response (FRAME_START ++ data ++ crc ++ FRAME_END) = Ret None.
Proof. exact (short_frame_none data crc). Qed.

Lemma short_payload_rejected_witness :
  _parse_response (FRAME_START ++ [x31] ++ crc_bytes [x31] ++ FRAME_END) = Ret None.
Proof.
  apply (short_payload_rejected [x31] (crc_bytes [x31])); simpl; lia.
Defined.

(** X3.  In a frame whose second byte is the flag 0xff, the third byte is
    covered by no check: replacing it never changes the result. *)
Theorem flagged_third_byte_ignored (x y : byte) (rest : bytes) :
  _parse_response (xdb :: xff :: x :: rest) = _parse_response (xdb :: xff :: y :: rest).
Proof.
  rewrite !parse_response_unfold.
  cbn [List.length].
  destruct (S (S (S (List.length rest))) <? 6)%nat eqn:Hlen; [reflexivity|].
  apply Nat.ltb_ge in Hlen.
  assert (Hs : forall z, startswith (xdb :: xff :: z :: rest) FRAME_START = true)
    by (intros z; apply startswith_start; reflexivity).
  assert (He : forall z, endswith (xdb :: xff :: z :: rest) FRAME_END
                         = endswith rest FRAME_END).
  { intros z. unfold endswith, FRAME_END. cbn [List.length].
    replace (1 <=? S (S (S (List.length rest))))%nat with true
      by (symmetry; apply Nat.leb_le; lia).
    replace (1 <=? List.length rest)%nat with true
      by (symmetry; apply Nat.leb_le; lia).
    replace (S (S (S (List.length rest))) - 1) with (3 + (List.length rest - 1)) by lia.
    reflexivity. }
  assert (Hd : forall z, data_with_crc (xdb :: xff :: z :: rest)
                         = firstn (List.length rest - 1) rest).
  { intros z. unfold data_with_crc. rewrite slice_second.
    cbn [List.length].
    replace (2 <? S (S (S (List.length rest))))%nat with true
      by (symmetry; apply Nat.ltb_lt; lia).
    replace (bytes_eqb [xff] COMMAND_FLAG) with true
      by (symmetry; apply bytes_eqb_eq; reflexivity).
    cbn [andb]. unfold slice, slice_bound. cbn [Z.ltb Z.compare List.length].
    replace (Nat.min (S (S (S (List.length rest)))) (Z.to_nat 3)) with 3 by lia.
    replace (Nat.min (S (S (S (List.length rest))))
               (Z.to_nat (-1 + Z.of_nat (S (S (S (List.length rest)))))) - 3)
      with (List.length rest - 1) by lia.
    reflexivity. }
  unfold payload, received_crc.
  rewrite (Hs x), (Hs y), (He x), (He y), (Hd x), (Hd y). reflexivity.
Qed.

Lemma byte_of_N_value (n : N) : (n < 256)%N -> Byte.to_N (byte_of_N n) = n.
Proof.
  intros H. unfold byte_of_N.
  destruct (Byte.of_N n) as [b|] eqn:E.
  - now apply Byte.to_of_N.
  - apply Byte.of_N_None_iff in E. lia.
Qed.

Lemma crc_bytes_value (data : bytes) :
  (crc_func data =
   256 * Byte.to_N (byte_of_N (crc_func data / 256)) +
   Byte.to_N (byte_of_N (crc_func data mod 256)))%N.
Proof.
  pose proof (crc_func_bound data) as Hb.
  rewrite !byte_of_N_value.
  - apply N.div_mod. discriminate.
  - apply N.mod_lt. discriminate.
  - apply N.Div0.div_lt_upper_bound. exact Hb.
Qed.

(** X4.  The checksum is always two bytes, the CRC in big-endian order:
    no overflow of [to_bytes] can occur. *)
Theorem calculate_crc_big_endian (data : bytes) :
  exists hi lo,
    _calculate_crc data = Ret [hi; lo] /\
    (crc_func data = 256 * Byte.to_N hi + Byte.to_N lo)%N.
Proof.
  exists (byte_of_N (crc_func data / 256)), (byte_of_N (crc_func data mod 256)).
  split; [apply calculate_crc_returns|apply crc_bytes_value].
Qed.

Lemma crc_bytes_inj (d1 d2 : bytes) :
  crc_bytes d1 = crc_bytes d2 -> crc_func d1 = crc_func d2.
Proof.
  unfold crc_bytes. intros H. injection H as Hhi Hlo.
  rewrite (crc_bytes_value d1), (crc_bytes_value d2), Hhi, Hlo. reflexivity.
Qed.

(** X5.  [_create_command] succeeds exactly on ASCII commands: then the
    frame is 0xdb 0xff, the command bytes, the CRC of flag and command, and
    0xdc, five bytes longer than the command; on any other command it raises
    [UnicodeEncodeError]. *)
Theorem create_command_ascii (command : string) :
  (forallb is_ascii (list_ascii_of_string command) = true ->
   exists frame,
     _create_command command = Ret frame /\
     frame = [xdb; xff] ++ map byte_of_ascii (list_ascii_of_string command)
               ++ crc_bytes (xff :: map byte_of_ascii (list_ascii_of_string command))
               ++ [xdc] /\
     List.length frame = String.length command + 5) /\
  (forallb is_ascii (list_ascii_of_string command) = false ->
   _create_command command = Raise UnicodeEncodeError).
Proof.
  split; intros H; unfold _create_command.
  - rewrite (encode_ascii_ascii _ H). cbn [rbind].
    rewrite calculate_crc_returns. cbn [rbind].
    eexists. split; [reflexivity|]. split; [reflexivity|].
    assert (Hl : List.length (list_ascii_of_string command) = String.length command)
      by (clear; induction command; simpl; congruence).
    rewrite !length_app, length_map, Hl. unfold crc_bytes. simpl List.length. lia.
  - rewrite (encode_ascii_raises _ H). reflexivity.
Qed.

Lemma create_command_ascii_witness :
  (exists frame,
     _create_command "DC=1" = Ret frame /\
     frame = [xdb; xff] ++ map byte_of_ascii (list_ascii_of_string "DC=1")
               ++ crc_bytes (xff :: map byte_of_ascii (list_ascii_of_string "DC=1"))
               ++ [xdc] /\
     List.length frame = String.length "DC=1" + 5) /\
  _create_command (String (ascii_of_nat 233) "1234") = Raise UnicodeEncodeError.
Proof.
  split.
  - apply (proj1 (create_command_ascii "DC=1")). reflexivity.
  - apply (proj2 (create_command_ascii (String (ascii_of_nat 233) "1234"))). reflexivity.
Defined.

Lemma encode_ascii_inj (p q : string) (data : bytes) :
  encode_ascii p = Ret data -> encode_ascii q = Ret data -> p = q.
Proof.
  intros Hp Hq. rewrite <- (decode_encode _ _ Hp), <- (decode_encode _ _ Hq).
  reflexivity.
Qed.

Lemma app_same_length {A} (a b x y : list A) :
  List.length a = List.length b -> a ++ x = b ++ y -> a = b.
Proof.
  revert b. induction a as [|h a IH]; intros [|h' b] Hl H;
    try discriminate; [reflexivity|].
  simpl in Hl, H. injection H as -> H. f_equal. apply IH; [lia | exact H].
Qed.

(** X6.  Distinct commands never share a frame. *)
Theorem create_command_injective (c1 c2 : string) (frame : bytes) :
  _create_command c1 = Ret frame -> _create_command c2 = Ret frame -> c1 = c2.
Proof.
  intros H1 H2.
  apply create_command_shape in H1. destruct H1 as (d1 & E1 & F1).
  apply create_command_shape in H2. destruct H2 as (d2 & E2 & F2).
  rewrite F1 in F2. injection F2 as F2.
  assert (Hlen : List.length d1 = List.length d2).
  { apply (f_equal (@List.length byte)) in F2.
    rewrite !length_app in F2. simpl in F2. lia. }
  assert (Hd : d1 = d2) by exact (app_same_length _ _ _ _ Hlen F2).
  subst d2. exact (encode_ascii_inj _ _ _ E1 E2).
Qed.

Lemma create_command_injective_witness :
  "SS=1" = "SS=1".
Proof.
  apply (create_command_injective "SS=1" "SS=1"
           [xdb; xff; x53; x53; x3d; x31; xe6; x6d; xdc]);
    vm_compute; reflexivity.
Defined.

(** *** The checksum tells any two data differing in one byte apart *)

Lemma all_below_spec (P : N -> bool) (k : N) :
  all_below P k = true -> forall n, (n < k)%N -> P n = true.
Proof.
  unfold all_below. induction k as [|k IH] using N.peano_ind; intros H n Hn.
  - lia.
  - rewrite N.recursion_succ in H;
      [|reflexivity|intros ? ? -> ? ? ->; reflexivity].
    apply andb_true_iff in H. destruct H as (Hk & HP).
    destruct (N.eq_dec n k) as [->|Hne]; [exact HP|].
    apply IH; [exact Hk | lia].
Qed.

Lemma crc_unshift_shift (c : N) :
  (c < 65536)%N -> crc_unshift (crc_shift c) = c.
Proof.
  intros H.
  assert (Hall : all_below (fun n => N.eqb (crc_unshift (crc_shift n)) n) 65536 = true)
    by (vm_compute; reflexivity).
  apply N.eqb_eq. exact (all_below_spec _ _ Hall c H).
Qed.

Lemma crc_shift_inj (c1 c2 : N) :
  (c1 < 65536)%N -> (c2 < 65536)%N -> crc_shift c1 = crc_shift c2 -> c1 = c2.
Proof.
  intros H1 H2 H.
  rewrite <- (crc_unshift_shift c1 H1), <- (crc_unshift_shift c2 H2), H.
  reflexivity.
Qed.

Lemma iter_shift_bound (n : nat) (c : N) :
  (c < 65536)%N -> (Nat.iter n crc_shift c < 65536)%N.
Proof.
  destruct n; simpl; intros H; [exact H | apply crc_shift_bound].
Qed.

Lemma iter_shift_inj (n : nat) (c1 c2 : N) :
  (c1 < 65536)%N -> (c2 < 65536)%N ->
  Nat.iter n crc_shift c1 = Nat.iter n crc_shift c2 -> c1 = c2.
Proof.
  intros H1 H2. induction n as [|n IH]; simpl; intros H.
  - exact H.
  - apply IH. apply crc_shift_inj; auto using iter_shift_bound.
Qed.

Lemma lxor_cancel_r (a b k : N) : N.lxor a k = N.lxor b k -> a = b.
Proof.
  intros H. apply (f_equal (fun x => N.lxor x k)) in H.
  now rewrite !N.lxor_assoc, !N.lxor_nilpotent, !N.lxor_0_r in H.
Qed.

Lemma byte_shifted_bound (b : byte) : (N.shiftl (Byte.to_N b) 8 < 65536)%N.
Proof.
  rewrite N.shiftl_mul_pow2. pose proof (Byte.to_N_bounded b).
  change (2 ^ 8)%N with 256%N. lia.
Qed.

Lemma log2_small (a : N) : (a < 65536)%N -> (N.log2 a < 16)%N.
Proof.
  intros H. destruct (N.eq_dec a 0) as [->|Hne]; [reflexivity|].
  apply N.log2_lt_pow2; [lia | exact H].
Qed.

Lemma lxor_bound (a b : N) :
  (a < 65536)%N -> (b < 65536)%N -> (N.lxor a b < 65536)%N.
Proof.
  intros Ha Hb.
  destruct (N.eq_dec (N.lxor a b) 0) as [->|Hne]; [reflexivity|].
  change 65536%N with (2 ^ 16)%N. apply N.log2_lt_pow2; [lia|].
  pose proof (N.log2_lxor a b). pose proof (log2_small a Ha).
  pose proof (log2_small b Hb). lia.
Qed.

Lemma crc_byte_inj_state (b : byte) (c1 c2 : N) :
  (c1 < 65536)%N -> (c2 < 65536)%N -> crc_byte c1 b = crc_byte c2 b -> c1 = c2.
Proof.
  unfold crc_byte. intros H1 H2 H.
  apply iter_shift_inj in H; auto using lxor_bound, byte_shifted_bound.
  exact (lxor_cancel_r _ _ _ H).
Qed.

Lemma crc_byte_inj_byte (c : N) (b1 b2 : byte) :
  (c < 65536)%N -> crc_byte c b1 = crc_byte c b2 -> b1 = b2.
Proof.
  unfold crc_byte. intros Hc H.
  apply iter_shift_inj in H; auto using lxor_bound, byte_shifted_bound.
  rewrite !(N.lxor_comm c) in H. apply lxor_cancel_r in H.
  rewrite !N.shiftl_mul_pow2 in H. apply N.mul_cancel_r in H; [|discriminate].
  pose proof (Byte.of_to_N b1) as E1. pose proof (Byte.of_to_N b2) as E2.
  congruence.
Qed.

Lemma crc_fold_inj (post : bytes) :
  forall c1 c2, (c1 < 65536)%N -> (c2 < 65536)%N -> c1 <> c2 ->
    fold_left crc_byte post c1 <> fold_left crc_byte post c2.
Proof.
  induction post as [|b post IH]; simpl; intros c1 c2 H1 H2 Hne.
  - exact Hne.
  - apply IH; try apply crc_byte_bound.
    intros H. apply Hne. exact (crc_byte_inj_state b c1 c2 H1 H2 H).
Qed.

Lemma crc_detects_byte_change (pre post : bytes) (b b' : byte) :
  b <> b' -> crc_func (pre ++ b :: post) <> crc_func (pre ++ b' :: post).
Proof.
  intros Hne. unfold crc_func. rewrite !fold_left_app. simpl.
  apply crc_fold_inj; try apply crc_byte_bound.
  intros H. apply Hne.
  refine (crc_byte_inj_byte _ _ _ _ H).
  apply crc_fold_bound. reflexivity.
Qed.

(** X7.  A response frame in which one data byte was altered in transit,
    the checksum being that of the original data, is rejected, provided the
    altered data does not begin with the flag byte 0xff (the decoder would
    read such a frame as a command-shaped one). *)
Theorem corrupted_response_rejected (pre post : bytes) (b b' : byte) :
  b <> b' ->
  hd_error (pre ++ b' :: post) <> Some xff ->
  _parse_response
    (FRAME_START ++ (pre ++ b' :: post) ++ crc_bytes (pre ++ b :: post) ++ FRAME_END)
  = Ret None.
Proof.
  intros Hne Hflag.
  destruct (Nat.lt_ge_cases (List.length (pre ++ b' :: post)) 2) as [Hs|Hl].
  - apply short_frame_none; [exact Hs | reflexivity].
  - rewrite response_frame_decodes; auto.
    replace (bytes_eqb (crc_bytes (pre ++ b :: post)) (crc_bytes (pre ++ b' :: post)))
      with false; [reflexivity|].
    symmetry. apply bytes_eqb_neq. intros H. apply crc_bytes_inj in H.
    exact (crc_detects_byte_change _ _ _ _ Hne H).
Qed.

Lemma corrupted_response_rejected_witness :
  _parse_response
    (FRAME_START ++ ([x53; x3d] ++ x32 :: []) ++ crc_bytes ([x53; x3d] ++ x31 :: [])
       ++ FRAME_END)
  = Ret None.
Proof.
  apply (corrupted_response_rejected [x53; x3d] [] x31 x32); discriminate.
Defined.


(** ** The wake sequence *)

Lemma io_st c s r t s' :
  io c s = (r, t, s') ->
  (exists p, s' = mkState p (sock s) (next_id s)) /\
  ((exists d, r = Ret d /\ t = [Io c (Ok d)]) \/
   (r = Raise OSError /\ t = [Io c Fail])).
Proof.
  unfold io. destruct s as [p sk n]. cbn [pending sock next_id].
  destruct p as [|[d|] rest]; intros H; injection H as <- <- <-; eauto 6.
Qed.

Lemma tcp_socket_st s r t s' :
  tcp_socket s = (r, t, s') ->
  (exists d p, r = Ret (next_id s) /\ t = [Io (CTcpSocket (next_id s)) (Ok d)] /\
     s' = mkState p (Some (next_id s)) (S (next_id s))) \/
  (exists p, r = Raise OSError /\ t = [Io (CTcpSocket (next_id s)) Fail] /\
     s' = mkState p (sock s) (next_id s)).
Proof.
  unfold tcp_socket, io. destruct s as [p sk n]. cbn [pending sock next_id].
  destruct p as [|[d|] rest]; intros H; injection H as <- <- <-; eauto 8.
Qed.

Lemma tcp_recv_st id bufsize s r t s' :
  tcp_recv id bufsize s = (r, t, s') ->
  (exists p, s' = mkState p (sock s) (next_id s)) /\
  ((exists d b, b = firstn bufsize d /\ r = Ret b /\
                t = [Io (CTcpRecv id bufsize) (Ok d)]) \/
   (r = Raise OSError /\ t = [Io (CTcpRecv id bufsize) Fail])).
Proof.
  unfold tcp_recv. intros H. apply bind_inv in H.
  destruct H as [(a & t1 & s1 & t2 & Hm & Hk & ->)|(e & Hm & ->)];
    apply io_st in Hm; destruct Hm as (Hp & [(d & Hr & ->)|(Hr & ->)]);
    try discriminate.
  - apply ret_inv in Hk. destruct Hk as (-> & -> & ->).
    injection Hr as ->. split; [exact Hp|]. left. exists d, (firstn bufsize d). auto.
  - injection Hr as ->. auto.
Qed.

Lemma set_sock_st v s r t s' :
  set_sock v s = (r, t, s') ->
  r = Ret tt /\ t = [] /\ s' = mkState (pending s) v (next_id s).
Proof. unfold set_sock. intros H. injection H as <- <- <-. auto. Qed.

Ltac clean_st :=
  repeat match goal with
         | H : _ /\ _ |- _ => destruct H
         | H : exists _, _ |- _ => destruct H
         | H : _ \/ _ |- _ => destruct H
         | H : Ret _ = Ret _ |- _ => injection H as H
         | H : Raise _ = Raise _ |- _ => injection H as H
         | H : Ret _ = Raise _ |- _ => discriminate H
         | H : Raise _ = Ret _ |- _ => discriminate H
         | H : ?x = ?y |- _ => first [subst x | subst y]
         end.

Ltac inv_st H :=
  lazymatch type of H with
  | bind _ _ _ = _ =>
      let Hm := fresh "Hm" in
      let Hk := fresh "Hk" in
      apply bind_inv in H;
      destruct H as [(? & ? & ? & ? & Hm & Hk & ?)|(? & Hm & ?)];
      [inv_st Hm; inv_st Hk | inv_st Hm]
  | try_except _ _ _ = _ =>
      let Hm := fresh "Hm" in
      let Hk := fresh "Hk" in
      apply try_except_inv in H;
      destruct H as [(? & Hm & ?)|(? & ? & ? & ? & Hm & Hk & ?)];
      [inv_st Hm | inv_st Hm; inv_st Hk]
  | ret _ _ = _ => apply ret_inv in H; clean_st
  | raise _ _ = _ => apply raise_inv in H; clean_st
  | lift _ _ = _ => apply lift_inv in H; clean_st
  | emit _ _ = _ => apply emit_inv in H; clean_st
  | sleep _ _ = _ => apply emit_inv in H; clean_st
  | io _ _ = _ => apply io_st in H; clean_st
  | tcp_socket _ = _ => apply tcp_socket_st in H; clean_st
  | tcp_recv _ _ _ = _ => apply tcp_recv_st in H; clean_st
  | get_sock _ = _ => apply get_sock_inv in H; clean_st
  | set_sock _ _ = _ => apply set_sock_st in H; clean_st
  | (if ?c then _ else _) _ = _ => destruct c eqn:?; inv_st H
  | (match sock ?x with Some _ => _ | None => _ end) _ = _ =>
      destruct (sock x) eqn:?; inv_st H
  | _ => clean_st
  end.

Lemma knocks_st (self : PimaProtocol) s r t s' :
  _send_udp_knocks self s = (r, t, s') ->
  (exists p, s' = mkState p (sock s) (next_id s)) /\
  (forall o, open_after o t = o) /\
  tcp_touched t = false /\ refusals t = 0 /\ failures t = 0 /\ backoffs t = 0 /\
  tcp_sends t = [] /\
  (exists k, udp_sent t = firstn k (knock_datagrams self)) /\
  match r with
  | Ret _ =>
      knocks_failed t = false /\ udp_sent t = knock_datagrams self
  | Raise e =>
      knocks_failed t = true /\ e = OSError
  end.
Proof.
  unfold _send_udp_knocks, knock_datagrams, UDP_KNOCKS. cbn [send_knocks].
  set (ms := 100).
  assert (Hms : Nat.eqb ms 2000 = false) by reflexivity. clearbody ms.
  intros H.
  inv_st H; cbn [sock next_id pending app map backoffs plus]; rewrite ?Hms;
    (split; [eexists; reflexivity|]);
    (split; [intros o; reflexivity|]);
    (do 5 (split; [reflexivity|])).
  all: split;
    [ first [ exists 0; reflexivity | exists 1; reflexivity | exists 2; reflexivity ] | ].
  all: split; reflexivity.
Qed.


Lemma udp_sent_app (a b : list event) : udp_sent (a ++ b) = udp_sent a ++ udp_sent b.
Proof.
  induction a as [|ev a IH]; [reflexivity|].
  destruct ev as [c oc| | | | | | |]; try destruct c; cbn [app udp_sent];
    rewrite ?IH; reflexivity.
Qed.

Lemma tcp_touched_app (a b : list event) :
  tcp_touched (a ++ b) = tcp_touched a || tcp_touched b.
Proof.
  induction a as [|ev a IH]; [reflexivity|].
  destruct ev as [c oc| | | | | | |]; try destruct c; cbn [app tcp_touched orb];
    rewrite ?IH; reflexivity.
Qed.

Lemma knocks_failed_app (a b : list event) :
  knocks_failed (a ++ b) = knocks_failed a || knocks_failed b.
Proof.
  induction a as [|ev a IH]; [reflexivity|].
  destruct ev; cbn [app knocks_failed orb]; rewrite ?IH; reflexivity.
Qed.

Lemma refusals_app (a b : list event) : refusals (a ++ b) = refusals a + refusals b.
Proof.
  induction a as [|ev a IH]; [reflexivity|].
  destruct ev; cbn [app refusals plus]; rewrite ?IH; reflexivity.
Qed.

Lemma failures_app (a b : list event) : failures (a ++ b) = failures a + failures b.
Proof.
  induction a as [|ev a IH]; [reflexivity|].
  destruct ev; cbn [app failures plus]; rewrite ?IH; reflexivity.
Qed.

Lemma slept_app (a b : list event) : slept (a ++ b) = slept a ++ slept b.
Proof.
  induction a as [|ev a IH]; [reflexivity|].
  destruct ev; cbn [app slept]; rewrite ?IH; reflexivity.
Qed.

Lemma backoffs_app (a b : list event) : backoffs (a ++ b) = backoffs a + backoffs b.
Proof.
  induction a as [|ev a IH]; [reflexivity|].
  destruct ev; cbn [app backoffs]; rewrite ?IH; try reflexivity.
  apply Nat.add_assoc.
Qed.

Lemma open_after_app (a b : list event) :
  forall o, open_after o (a ++ b) = open_after (open_after o a) b.
Proof.
  induction a as [|ev a IH]; intros o; [reflexivity|].
  destruct ev as [c oc| | | | | | |]; try destruct c; try destruct oc;
    cbn [app open_after]; apply IH.
Qed.

Lemma remove_fresh (id : nat) (o : list nat) :
  ~ In id o -> remove Nat.eq_dec id (o ++ [id]) = o.
Proof.
  intros H. rewrite remove_app, (notin_remove Nat.eq_dec o id H).
  cbn [remove]. destruct (Nat.eq_dec id id) as [_|N]; [|contradiction].
  apply app_nil_r.
Qed.

Lemma remove_absent (id : nat) (o : list nat) :
  ~ In id o -> remove Nat.eq_dec id o = o.
Proof. apply notin_remove. Qed.

Ltac read_wire :=
  cbn [app udp_sent tcp_touched knocks_failed refusals failures backoffs tcp_sends
       open_after];
  rewrite ?udp_sent_app, ?tcp_touched_app, ?knocks_failed_app, ?refusals_app,
    ?failures_app, ?backoffs_app, ?tcp_sends_app, ?open_after_app;
  repeat match goal with
         | H : forall o, open_after o _ = o |- _ => rewrite !H
         end;
  repeat match goal with
         | H : udp_sent _ = _ |- _ => rewrite !H
         | H : tcp_touched _ = _ |- _ => rewrite !H
         | H : knocks_failed _ = _ |- _ => rewrite !H
         | H : refusals _ = _ |- _ => rewrite !H
         | H : failures _ = _ |- _ => rewrite !H
         | H : backoffs _ = _ |- _ => rewrite !H
         | H : tcp_sends _ = _ |- _ => rewrite !H
         end;
  cbn [app udp_sent tcp_touched knocks_failed refusals failures backoffs tcp_sends
       open_after orb plus];
  repeat match goal with
         | H : Nat.eqb _ 2000 = _ |- _ => rewrite !H
         end.

(** What the [try] block does on the wire and to the socket, in a state whose
    next socket identifier is not among the sockets already open. *)
Lemma session_wire (self : PimaProtocol) (command : string) (attempt : nat) s r t s' :
  session self command attempt s = (r, t, s') ->
  failures t = 0 /\ backoffs t = 0 /\
  (exists k, map Ret (tcp_sends t) = firstn k (session_frames self command)) /\
  (exists k, udp_sent t = firstn k (knock_datagrams self)) /\
  (tcp_touched t = true -> udp_sent t = knock_datagrams self) /\
  (knocks_failed t = true -> tcp_touched t = false) /\
  forall o, ~ In (next_id s) o ->
    match r with
    | Ret (FReturn _) =>
        map Ret (tcp_sends t) = session_frames self command /\
        refusals t = 0 /\ open_after o t = o /\ next_id s' = S (next_id s)
    | Ret FContinue =>
        map Ret (tcp_sends t) = firstn 1 (session_frames self command) /\
        refusals t = 1 /\ open_after o t = o ++ [next_id s] /\
        next_id s' = S (next_id s)
    | Ret FNext => False
    | Raise _ =>
        refusals t = 0 /\
        ((sock s' = sock s /\ next_id s' = next_id s /\ open_after o t = o) \/
         (sock s' = Some (next_id s) /\ next_id s' = S (next_id s) /\
          tcp_touched t = true /\
          (open_after o t = o ++ [next_id s] \/ open_after o t = o)))
    end.
Proof.
  unfold session.
  set (bufsize := 1024). clearbody bufsize.
  set (ms := 1000).
  assert (Hms : Nat.eqb ms 2000 = false) by reflexivity. clearbody ms.
  intros H.
  inv_st H;
    repeat match goal with
           | H : _send_udp_knocks _ _ = _ |- _ =>
               apply knocks_st in H;
               destruct H as (?Hst & ?Ho & ?Ht & ?Hr & ?Hf & ?Hb & ?Hs & (?k & ?Hk) & ?Hu)
           end.
  all: clean_st.
  all: cbn [sock next_id pending].
  all: try match goal with
           | H : udp_sent _ = knock_datagrams _ |- _ => clear Hk
           end.
  all: read_wire.
  all: rewrite ?app_nil_r.
  all: split; [reflexivity|].
  all: split; [reflexivity|].
  all: split;
    [ first [ exists 0; reflexivity
            | exists 1; cbn [map firstn session_frames]; congruence
            | exists 2; cbn [map firstn session_frames]; congruence
            | exists 3; cbn [map firstn session_frames]; congruence ] | ].
  all: split;
    [ first [ exists 2; reflexivity | eexists; reflexivity ] | ].
  all: split; [ intros ?; first [reflexivity | discriminate] | ].
  all: split; [ intros ?; first [reflexivity | discriminate] | ].
  all: intros o Hfresh; read_wire; rewrite ?(remove_fresh _ _ Hfresh).
  all: try match goal with
           | |- map Ret _ = _ /\ _ =>
               split; [unfold session_frames; cbn [map firstn]; congruence|]
           end.
  all: try (repeat split; reflexivity).
  all: split; [reflexivity|].
  all: try (left; repeat split; reflexivity).
  all: try (right; repeat split; auto; fail).
Qed.

(** What the [except] clause does to the socket the [try] block left. *)
Lemma handler_wire (self : PimaProtocol) (attempt : nat) (err : exn) s r t s' :
  handler self attempt err s = (r, t, s') ->
  r = Ret FNext /\ next_id s' = next_id s /\
  failures t = 1 /\
  backoffs t = (if (attempt <? retry_attempts self - 1)%nat then 1 else 0) /\
  refusals t = 0 /\ tcp_sends t = [] /\ udp_sent t = [] /\ knocks_failed t = false /\
  tcp_touched t = (match sock s with Some _ => true | None => false end) /\
  forall o, open_after o t =
            match sock s with
            | Some id => remove Nat.eq_dec id o
            | None => o
            end.
Proof.
  unfold handler.
  set (ms := 2000).
  assert (Hms : Nat.eqb ms 2000 = true) by reflexivity. clearbody ms.
  intros H.
  inv_st H; cbn [sock next_id pending]; read_wire;
    repeat match goal with
           | H : sock _ = _ |- _ => rewrite H
           end;
    repeat split; reflexivity.
Qed.

(** One pass through the loop body. *)
Lemma iteration_wire (self : PimaProtocol) (command : string) (attempt : nat) s r t s' :
  iteration self command attempt s = (r, t, s') ->
  exists f, r = Ret f /\
    failures t = (match f with FNext => 1 | _ => 0 end) /\
    backoffs t =
      (match f with
       | FNext => if (attempt <? retry_attempts self - 1)%nat then 1 else 0
       | _ => 0
       end) /\
    refusals t = (match f with FContinue => 1 | _ => 0 end) /\
    (exists k, map Ret (tcp_sends t) = firstn k (session_frames self command)) /\
    match f with
    | FReturn _ => map Ret (tcp_sends t) = session_frames self command
    | FContinue => map Ret (tcp_sends t) = firstn 1 (session_frames self command)
    | FNext => True
    end /\
    (exists k, udp_sent t = firstn k (knock_datagrams self)) /\
    (tcp_touched t = true -> udp_sent t = knock_datagrams self) /\
    (knocks_failed t = true -> tcp_touched t = false) /\
    next_id s <= next_id s' <= S (next_id s) /\
    forall o, ~ In (next_id s) o ->
      open_after o t = o ++ (match f with FContinue => [next_id s] | _ => [] end) /\
      (f = FContinue -> next_id s' = S (next_id s)).
Proof.
  unfold iteration. intros H.
  apply bind_inv in H.
  destruct H as [(u & t0 & s0 & t1 & Hset & Hrun & ->)|(e & Hset & _)];
    apply set_sock_st in Hset; destruct Hset as (Hu & -> & ->); [|discriminate].
  cbn [app].
  apply try_except_inv in Hrun.
  destruct Hrun as [(f & Hs & ->)|(e & t2 & s2 & t3 & Hs & Hh & ->)];
    apply session_wire in Hs; cbn [sock next_id pending] in Hs;
    destruct Hs as (Hf & Hb & Hk & Hku & Htu & Hkt & Hsock).
  - exists f. split; [reflexivity|].
    pose proof (Hsock [] (fun x => x)) as H0.
    destruct f as [|v|]; [| |contradiction].
    + destruct H0 as (Hm & Hr & _ & Hn).
      repeat split; auto; try lia;
        destruct (Hsock o H) as (_ & _ & Ho & _); auto.
    + destruct H0 as (Hm & Hr & _ & Hn).
      repeat split; auto; try lia; try discriminate.
      destruct (Hsock o H) as (_ & _ & Ho & _). rewrite Ho. symmetry. apply app_nil_r.
  - apply handler_wire in Hh.
    destruct Hh as (-> & Hn & Hf2 & Hb2 & Hr2 & Hs2 & Hu2 & Hk2 & Ht2 & Ho2).
    exists FNext. split; [reflexivity|].
    rewrite failures_app, backoffs_app, refusals_app, tcp_sends_app, udp_sent_app,
      tcp_touched_app, knocks_failed_app.
    rewrite Hf, Hb, Hf2, Hb2, Hr2, Hs2, Hu2, Hk2, Ht2, !app_nil_r, orb_false_r.
    pose proof (Hsock [] (fun x => x)) as (Hr & Hcase).
    rewrite Hr, Hn.
    assert (Hopen : sock s2 = None /\ next_id s2 = next_id s \/
                    sock s2 = Some (next_id s) /\ next_id s2 = S (next_id s) /\
                    tcp_touched t2 = true).
    { destruct Hcase as [(A & B & _)|(A & B & C & _)]; [left|right]; auto. }
    do 6 (split; [solve [auto]|]).
    split.
    { destruct Hopen as [(A & _)|(A & _ & C)]; rewrite A.
      - rewrite orb_false_r. exact Htu.
      - intros _. apply Htu. exact C. }
    split.
    { intros Hkf. specialize (Hkt Hkf).
      destruct Hopen as [(A & _)|(A & _ & C)]; rewrite A.
      - rewrite Hkt. reflexivity.
      - congruence. }
    split; [destruct Hopen as [(_ & B)|(_ & B & _)]; lia|].
    intros o Ho. split; [|discriminate].
    rewrite open_after_app, Ho2, app_nil_r.
    destruct (Hsock o Ho) as (_ & [(A & _ & C)|(A & _ & _ & [C|C])]);
      cbn [sock] in A; rewrite A, C.
    + reflexivity.
    + apply remove_fresh. exact Ho.
    + apply remove_absent. exact Ho.
Qed.

(** *** The loop *)

Lemma for_attempts_sockets (self : PimaProtocol) (command : string) (attempts : list nat) :
  forall s r t s' o,
    for_attempts self command attempts s = (r, t, s') ->
    Forall (fun id => id < next_id s) o ->
    exists leaked,
      open_after o t = o ++ leaked /\
      List.length leaked = refusals t /\
      Forall (fun id => id < next_id s') (o ++ leaked).
Proof.
  induction attempts as [|attempt rest IH]; intros s r t s' o H Ho;
    cbn [for_attempts] in H.
  - inv_st H. exists []. rewrite !app_nil_r. cbn [open_after refusals List.length].
    repeat split; auto.
  - apply bind_inv in H.
    destruct H as [(f & t1 & s1 & t2 & Hi & Hk & ->)|(e & Hi & ->)];
      apply iteration_wire in Hi;
      destruct Hi as (f' & Hr & _ & _ & Href & _ & _ & _ & _ & _ & Hn & Hopen);
      [|discriminate].
    injection Hr as <-.
    assert (Hfresh : ~ In (next_id s) o).
    { intros Hin. rewrite Forall_forall in Ho. specialize (Ho _ Hin). lia. }
    destruct (Hopen o Hfresh) as (Ho1 & Hn1).
    rewrite open_after_app, refusals_app, Ho1, Href.
    assert (Hlt : Forall (fun id => id < next_id s1)
                    (o ++ match f with FContinue => [next_id s] | _ => [] end)).
    { apply Forall_app. split.
      - eapply Forall_impl; [|exact Ho]. cbn beta. intros a Ha. lia.
      - destruct f; constructor; auto. rewrite Hn1 by reflexivity. lia. }
    destruct f as [|v|].
    + destruct (IH _ _ _ _ _ Hk Hlt) as (l2 & E & L & F).
      exists (next_id s :: l2). rewrite E, <- app_assoc. cbn [app List.length].
      rewrite <- app_assoc in F. auto.
    + apply ret_inv in Hk. destruct Hk as (-> & -> & ->).
      exists []. cbn [open_after refusals List.length plus]. auto.
    + destruct (IH _ _ _ _ _ Hk Hlt) as (l2 & E & L & F).
      exists l2. rewrite E, <- app_assoc. cbn [app plus].
      rewrite <- app_assoc in F. auto.
Qed.

Lemma for_attempts_backoffs (self : PimaProtocol) (command : string) (len : nat) :
  forall first s r t s',
    first + len = retry_attempts self ->
    for_attempts self command (seq first len) s = (r, t, s') ->
    backoffs t <= len - 1 /\
    backoffs t <= failures t /\
    failures t <= backoffs t + (if (len =? 0)%nat then 0 else 1).
Proof.
  induction len as [|len IH]; intros first s r t s' Hlen H;
    cbn [seq for_attempts] in H.
  - inv_st H. cbn [app backoffs failures Nat.eqb]. lia.
  - apply bind_inv in H.
    destruct H as [(f & t1 & s1 & t2 & Hi & Hk & ->)|(e & Hi & ->)];
      apply iteration_wire in Hi;
      destruct Hi as (f' & Hr & Hf & Hb & _); [|discriminate].
    injection Hr as <-.
    rewrite backoffs_app, failures_app, Hf, Hb. cbn [Nat.eqb].
    destruct f as [|v|].
    + apply IH in Hk; [|lia]. destruct (len =? 0)%nat; lia.
    + apply ret_inv in Hk. destruct Hk as (-> & -> & ->).
      cbn [app backoffs failures]. lia.
    + destruct len as [|len'].
      * cbn [seq for_attempts] in Hk. inv_st Hk. cbn [app backoffs failures].
        assert (E : (first <? retry_attempts self - 1)%nat = false)
          by (apply Nat.ltb_ge; lia).
        rewrite E. lia.
      * assert (E : (first <? retry_attempts self - 1)%nat = true)
          by (apply Nat.ltb_lt; lia).
        rewrite E. apply IH in Hk; [|lia]. cbn [Nat.eqb] in Hk. lia.
Qed.

Lemma map_ret_prefix_raise (e : exn) (rest : list (res bytes)) (sent : list bytes) (k : nat) :
  map Ret sent = firstn k (Raise e :: rest) -> sent = [].
Proof.
  destruct k as [|k]; destruct sent as [|f sent]; cbn [map firstn];
    intros H; try reflexivity; discriminate.
Qed.

Lemma for_attempts_bad_code (self : PimaProtocol) (command : string) (e : exn) :
  _create_command ("PW=" ++ alarm_code self) = Raise e ->
  forall attempts s r t s',
    for_attempts self command attempts s = (r, t, s') ->
    r = Ret None /\ tcp_sends t = [] /\ refusals t = 0 /\
    attempts_made t = List.length attempts /\
    failures t = List.length attempts.
Proof.
  intros Hbad.
  induction attempts as [|attempt rest IH]; intros s r t s' H;
    cbn [for_attempts] in H.
  - inv_st H. repeat split; reflexivity.
  - apply bind_inv in H.
    destruct H as [(f & t1 & s1 & t2 & Hi & Hk & ->)|(e0 & Hi & ->)].
    2:{ apply iteration_facts in Hi. destruct Hi as (f' & Hr & _). discriminate. }
    pose proof (iteration_facts _ _ _ _ _ _ _ Hi) as (f0 & Hr0 & Ha & _).
    apply iteration_wire in Hi.
    destruct Hi as (f' & Hr & Hf & _ & Href & (k & Hk1) & Hm & _).
    injection Hr as <-.
    unfold session_frames in Hk1, Hm. rewrite Hbad in Hk1, Hm.
    apply map_ret_prefix_raise in Hk1.
    rewrite Hk1 in Hm.
    destruct f as [|v|]; cbn [map firstn] in Hm; try discriminate.
    apply IH in Hk. destruct Hk as (-> & Hs & Hr2 & Ha2 & Hf2).
    rewrite tcp_sends_app, refusals_app, attempts_made_app, failures_app.
    rewrite Hk1, Hs, Hr2, Ha2, Hf2, Href, Hf, Ha. cbn [List.length app plus].
    auto.
Qed.

(** ** The retry loop, attempt by attempt *)




(** ** The calls of [close] *)

Lemma sockets_created_app (a b : list event) :
  sockets_created (a ++ b) = sockets_created a ++ sockets_created b.
Proof.
  induction a as [|ev a IH]; [reflexivity|].
  destruct ev as [c oc| | | | | | |]; try destruct c; try destruct oc;
    cbn [app sockets_created]; rewrite ?IH; reflexivity.
Qed.

Lemma close_calls_app (a b : list event) :
  close_calls (a ++ b) = close_calls a ++ close_calls b.
Proof.
  induction a as [|ev a IH]; [reflexivity|].
  destruct ev as [c oc| | | | | | |]; try destruct c;
    cbn [app close_calls]; rewrite ?IH; reflexivity.
Qed.

Lemma knocks_no_sockets (self : PimaProtocol) s r t s' :
  _send_udp_knocks self s = (r, t, s') ->
  (exists p, s' = mkState p (sock s) (next_id s)) /\
  sockets_created t = [] /\ close_calls t = [].
Proof.
  unfold _send_udp_knocks, UDP_KNOCKS. cbn [send_knocks].
  set (ms := 100). clearbody ms.
  intros H.
  inv_st H; cbn [sock next_id pending app];
    (split; [eexists; reflexivity|]); split; reflexivity.
Qed.

Lemma session_continue_no_close (self : PimaProtocol) (command : string) (attempt : nat)
    s r t s' :
  session self command attempt s = (r, t, s') ->
  r = Ret FContinue ->
  sockets_created t = [next_id s] /\ close_calls t = [].
Proof.
  unfold session.
  set (bufsize := 1024). clearbody bufsize.
  set (ms := 1000). clearbody ms.
  intros H.
  inv_st H;
    repeat match goal with
           | H : _send_udp_knocks _ _ = _ |- _ =>
               apply knocks_no_sockets in H; destruct H as (?Hst & ?Hc & ?Hk)
           end.
  all: clean_st.
  all: intros Hr; try discriminate Hr.
  all: cbn [sock next_id pending app sockets_created close_calls].
  all: rewrite sockets_created_app, close_calls_app, Hc, Hk.
  all: cbn [app sockets_created close_calls].
  all: split; reflexivity.
Qed.

Lemma iteration_continue_no_close (self : PimaProtocol) (command : string) (attempt : nat) s :
  returned (iteration self command attempt s) = Ret FContinue ->
  sockets_created (effects (iteration self command attempt s)) = [next_id s] /\
  close_calls (effects (iteration self command attempt s)) = [].
Proof.
  destruct (iteration self command attempt s) as [[r t] s'] eqn:H.
  unfold returned, effects. cbn [fst snd]. intros ->.
  unfold iteration in H. apply bind_inv in H.
  destruct H as [(u & t0 & s0 & t1 & Hset & Hrun & ->)|(e & Hset & _)];
    apply set_sock_st in Hset; destruct Hset as (Hu & -> & ->); [|discriminate].
  cbn [app].
  apply try_except_inv in Hrun.
  destruct Hrun as [(f & Hs & Hf)|(e & t2 & s2 & t3 & Hs & Hh & ->)].
  - injection Hf as <-.
    apply (session_continue_no_close _ _ _ _ _ _ _ Hs eq_refl).
  - apply handler_wire in Hh. destruct Hh as (Hf & _). discriminate.
Qed.

(** C4.  [close] is not called on the socket of an attempt whose login is
    refused.  Whatever the network does, a pass through the loop body that
    ends by [continue] has created a TCP socket and called [close] on none;
    and in the call in which the panel refuses the three logins, three
    sockets are created, [close] is never called, and the call returns
    [None]. *)
Theorem refused_login_never_closes :
  (forall (self : PimaProtocol) (command : string) (attempt : nat) s,
      returned (iteration self command attempt s) = Ret FContinue ->
      sockets_created (effects (iteration self command attempt s)) = [next_id s] /\
      close_calls (effects (iteration self command attempt s)) = []) /\
  returned (_connect_and_execute panel "SS=1"
              (fresh (script_refused ++ script_refused ++ script_refused))) = Ret None /\
  attempts_made
    (effects (_connect_and_execute panel "SS=1"
                (fresh (script_refused ++ script_refused ++ script_refused)))) = 3 /\
  sockets_created
    (effects (_connect_and_execute panel "SS=1"
                (fresh (script_refused ++ script_refused ++ script_refused)))) = [0; 1; 2] /\
  close_calls
    (effects (_connect_and_execute panel "SS=1"
                (fresh (script_refused ++ script_refused ++ script_refused)))) = [].
Proof.
  split; [exact iteration_continue_no_close|].
  vm_compute. repeat split; reflexivity.
Qed.

(** On the two other exit paths [close] is called on the socket. *)
Example close_called_on_success :
  sockets_created
    (effects (_connect_and_execute panel "SS=1"
                (fresh (script_answer (panel_frame "S=1"))))) = [0] /\
  close_calls
    (effects (_connect_and_execute panel "SS=1"
                (fresh (script_answer (panel_frame "S=1"))))) = [0].
Proof. vm_compute. split; reflexivity. Qed.

Example close_called_on_exception :
  sockets_created
    (effects (_connect_and_execute panel "SS=1"
                (fresh (knocks_ok ++ [Ok []; Ok []; Fail; Ok []])))) = [0] /\
  close_calls
    (effects (_connect_and_execute panel "SS=1"
                (fresh (knocks_ok ++ [Ok []; Ok []; Fail; Ok []])))) = [0].
Proof. vm_compute. split; reflexivity. Qed.

(** ** The wake sequence, the socket and the backoff *)

(** X8.  The wake sequence sends the two knock datagrams to the configured
    host and port in their order and stops at the first failure: the
    datagrams handed to [sendto] are a prefix of the two knocks.  It makes no
    call on a TCP socket.  It returns only after both knocks were sent, with
    no failure logged; otherwise it logs the failure and raises again the
    exception of the failing call, of whatever class that is. *)
Theorem knocks_sent_in_order (self : PimaProtocol) s :
  (exists k, udp_sent (effects (_send_udp_knocks self s)) =
             firstn k (knock_datagrams self)) /\
  tcp_touched (effects (_send_udp_knocks self s)) = false /\
  match returned (_send_udp_knocks self s) with
  | Ret _ =>
      udp_sent (effects (_send_udp_knocks self s)) = knock_datagrams self /\
      knocks_failed (effects (_send_udp_knocks self s)) = false
  | Raise _ =>
      knocks_failed (effects (_send_udp_knocks self s)) = true
  end.
Proof.
  destruct (_send_udp_knocks self s) as [[r t] s'] eqn:H.
  apply knocks_st in H.
  destruct H as (_ & _ & Ht & _ & _ & _ & _ & Hk & Hr).
  unfold returned, effects. cbn [fst snd].
  split; [exact Hk|]. split; [exact Ht|].
  destruct r; destruct Hr; auto.
Qed.

(** X9.  In one pass through the loop body the frames handed to [sock.send]
    are, in this order, the first [k] of: the login frame, the command frame,
    the disconnect frame ([k] from 0 to 3); a pass that ends by
    [return result] has sent all three, a pass that ends by [continue] only
    the login frame. *)
Theorem frames_in_order (self : PimaProtocol) (command : string) (attempt : nat) s :
  (exists k, map Ret (tcp_sends (effects (iteration self command attempt s))) =
             firstn k (session_frames self command)) /\
  match returned (iteration self command attempt s) with
  | Ret (FReturn _) =>
      map Ret (tcp_sends (effects (iteration self command attempt s))) =
      session_frames self command
  | Ret FContinue =>
      map Ret (tcp_sends (effects (iteration self command attempt s))) =
      firstn 1 (session_frames self command)
  | _ => True
  end.
Proof.
  destruct (iteration self command attempt s) as [[r t] s'] eqn:H.
  apply iteration_wire in H.
  destruct H as (f & -> & _ & _ & _ & Hk & Hm & _).
  unfold returned, effects. cbn [fst snd].
  split; [exact Hk|]. destruct f; auto.
Qed.

(** X10.  In one pass through the loop body no call is made on a TCP socket
    unless the wake sequence was completed: when any TCP call was made, both
    knocks had been sent and no knock failure was logged. *)
Theorem tcp_only_after_knocks (self : PimaProtocol) (command : string) (attempt : nat) s :
  tcp_touched (effects (iteration self command attempt s)) = true ->
  udp_sent (effects (iteration self command attempt s)) = knock_datagrams self /\
  knocks_failed (effects (iteration self command attempt s)) = false.
Proof.
  destruct (iteration self command attempt s) as [[r t] s'] eqn:H.
  apply iteration_wire in H.
  destruct H as (f & -> & _ & _ & _ & _ & _ & _ & Htu & Hkt & _).
  unfold effects. cbn [fst snd]. intros Ht.
  split; [auto|].
  destruct (knocks_failed t); [|reflexivity].
  rewrite Hkt in Ht by reflexivity. discriminate.
Qed.

Lemma tcp_only_after_knocks_witness :
  tcp_touched (effects (iteration panel "SS=1" 0 (fresh script_refused))) = true /\
  udp_sent (effects (iteration panel "SS=1" 0 (fresh script_refused))) =
    knock_datagrams panel /\
  knocks_failed (effects (iteration panel "SS=1" 0 (fresh script_refused))) = false.
Proof.
  split; [vm_compute; reflexivity|].
  apply (tcp_only_after_knocks panel "SS=1" 0 (fresh script_refused)).
  vm_compute. reflexivity.
Defined.

(** X11.  Whatever the command and the network do, the TCP sockets a call of
    [_connect_and_execute] has created and has not called [close] on when it
    returns are as many as logins were refused: every other pass calls
    [close] on its socket. *)
Theorem open_sockets_are_refused_logins (self : PimaProtocol) (command : string) s :
  List.length (open_sockets (effects (_connect_and_execute self command s))) =
  refusals (effects (_connect_and_execute self command s)).
Proof.
  unfold _connect_and_execute, open_sockets.
  destruct (for_attempts self command (seq 0 (retry_attempts self)) s)
    as [[r t] s'] eqn:H.
  apply (for_attempts_sockets _ _ _ _ _ _ _ []) in H; [|constructor].
  destruct H as (leaked & Ho & Hl & _).
  unfold effects. cbn [fst snd]. rewrite Ho. exact Hl.
Qed.

(** X12.  A call of [_connect_and_execute] sleeps the 2 s backoff at most
    [retry_attempts - 1] times: once after each attempt that ended in the
    [except] clause, the last possible attempt excepted. *)
Theorem backoff_bound (self : PimaProtocol) (command : string) s :
  backoffs (effects (_connect_and_execute self command s)) <= retry_attempts self - 1 /\
  backoffs (effects (_connect_and_execute self command s)) <=
    failures (effects (_connect_and_execute self command s)) /\
  failures (effects (_connect_and_execute self command s)) <=
    backoffs (effects (_connect_and_execute self command s)) + 1.
Proof.
  unfold _connect_and_execute.
  destruct (for_attempts self command (seq 0 (retry_attempts self)) s)
    as [[r t] s'] eqn:H.
  apply for_attempts_backoffs in H; [|reflexivity].
  unfold effects. cbn [fst snd].
  destruct (retry_attempts self =? 0)%nat; lia.
Qed.

Lemma login_frame_raises (self : PimaProtocol) :
  forallb is_ascii (list_ascii_of_string (alarm_code self)) = false ->
  _create_command ("PW=" ++ alarm_code self) = Raise UnicodeEncodeError.
Proof.
  intros H. unfold _create_command.
  rewrite encode_ascii_raises; [reflexivity|].
  cbn [append list_ascii_of_string forallb]. rewrite H.
  rewrite !andb_false_r. reflexivity.
Qed.

Lemma connect_and_execute_bad_code (self : PimaProtocol) (command : string) s :
  forallb is_ascii (list_ascii_of_string (alarm_code self)) = false ->
  returned (_connect_and_execute self command s) = Ret None /\
  tcp_sends (effects (_connect_and_execute self command s)) = [] /\
  open_sockets (effects (_connect_and_execute self command s)) = [] /\
  attempts_made (effects (_connect_and_execute self command s)) = retry_attempts self /\
  failures (effects (_connect_and_execute self command s)) = retry_attempts self.
Proof.
  intros Hbad. apply login_frame_raises in Hbad.
  unfold _connect_and_execute, open_sockets.
  destruct (for_attempts self command (seq 0 (retry_attempts self)) s)
    as [[r t] s'] eqn:H.
  pose proof (for_attempts_sockets _ _ _ _ _ _ _ [] H (Forall_nil _))
    as (leaked & Ho & Hl & _).
  apply (for_attempts_bad_code _ _ _ Hbad) in H.
  destruct H as (-> & Hs & Hr & Ha & Hf).
  rewrite length_seq in Ha, Hf.
  unfold returned, effects. cbn [fst snd].
  repeat split; auto.
  rewrite Ho. rewrite Hr in Hl. destruct leaked; [reflexivity|discriminate].
Qed.

(** X13.  With an alarm code that has a character outside ASCII the login
    frame cannot be built: every attempt ends in the [except] clause, no
    frame is ever handed to [sock.send], no socket is left open, and after
    [retry_attempts] attempts the call returns [None]. *)
Theorem non_ascii_alarm_code (self : PimaProtocol) (command : string) s :
  forallb is_ascii (list_ascii_of_string (alarm_code self)) = false ->
  returned (_connect_and_execute self command s) = Ret None /\
  tcp_sends (effects (_connect_and_execute self command s)) = [] /\
  open_sockets (effects (_connect_and_execute self command s)) = [] /\
  attempts_made (effects (_connect_and_execute self command s)) = retry_attempts self /\
  failures (effects (_connect_and_execute self command s)) = retry_attempts self.
Proof. apply connect_and_execute_bad_code. Qed.

Lemma non_ascii_alarm_code_witness :
  returned (_connect_and_execute
              (__init__ "192.168.1.250" 10150 (String (ascii_of_nat 233) "234"))
              "SS=1" (fresh (repeat (Ok []) 21))) = Ret None /\
  tcp_sends (effects (_connect_and_execute
              (__init__ "192.168.1.250" 10150 (String (ascii_of_nat 233) "234"))
              "SS=1" (fresh (repeat (Ok []) 21)))) = [].
Proof.
  pose proof (non_ascii_alarm_code
                (__init__ "192.168.1.250" 10150 (String (ascii_of_nat 233) "234"))
                "SS=1" (fresh (repeat (Ok []) 21)) eq_refl) as (H1 & H2 & _).
  split; assumption.
Defined.

(** X14.  [_connect_and_execute] never raises, whatever the command, the
    alarm code and the network: it returns after at most [retry_attempts]
    attempts, and at most one command exchange was completed, whose result
    is the value returned. *)
Theorem connect_and_execute_never_raises (self : PimaProtocol) (command : string) s :
  exists v,
    returned (_connect_and_execute self command s) = Ret v /\
    attempts_made (effects (_connect_and_execute self command s)) <= retry_attempts self /\
    (results_logged (effects (_connect_and_execute self command s)) = [] /\ v = None \/
     results_logged (effects (_connect_and_execute self command s)) = [v]).
Proof.
  destruct (connect_and_execute_facts self command s) as (v & Hr & Hcase).
  exists v. split; [exact Hr|].
  destruct Hcase as [(Hl & Hv & Ha)|(Hl & Ha)]; split; auto; lia.
Qed.

(** ** The status query *)

(** A string in which "S=" occurs is cut at its first occurrence. *)
Lemma first_occurrence (r : string) :
  contains "S=" r = true ->
  exists pre rest, r = (pre ++ "S=" ++ rest)%string /\ ~ occurs "S=" (pre ++ "S").
Proof.
  induction r as [|c r IH]; rewrite contains_unfold; intros H.
  - discriminate.
  - destruct (prefix "S=" (String c r)) eqn:Hp.
    + apply prefix_begins in Hp. destruct Hp as [post Hp].
      exists EmptyString, post. split; [exact Hp|].
      apply not_occurs_by_test. reflexivity.
    + cbn [orb] in H. destruct (IH H) as (pre & rest & -> & Hno).
      exists (String c pre), rest. split; [reflexivity|].
      apply contains_absent.
      change (String c pre ++ "S")%string with (String c (pre ++ "S")).
      rewrite contains_unfold. apply contains_absent in Hno. rewrite Hno.
      rewrite orb_false_r.
      destruct (prefix "S=" (String c (pre ++ "S"))) eqn:E; [|reflexivity].
      apply prefix_begins in E. destruct E as [post E].
      assert (Hb : begins "S=" (String c (pre ++ "S=" ++ rest))).
      { destruct pre as [|c' pre]; cbn [append] in E |- *.
        - injection E as E1 E2 E3. discriminate.
        - injection E as E1 E2 E3. subst c c'.
          exists (pre ++ "S=" ++ rest)%string. reflexivity. }
      apply prefix_begins in Hb. congruence.
Qed.

Lemma status_empty_piece (pre rest : string) :
  ~ occurs "S=" (pre ++ "S") ->
  rest = EmptyString \/ begins "S=" rest ->
  status_of_response (Some (pre ++ "S=" ++ rest)%string) = Raise IndexError.
Proof.
  intros Hfirst Hrest. unfold status_of_response.
  assert (Ht : truthy (Some (pre ++ "S=" ++ rest)%string) = true)
    by (destruct pre; reflexivity).
  rewrite Ht. cbn [negb].
  assert (Hc : contains "S=" (pre ++ "S=" ++ rest) = true)
    by (apply contains_occurs; exists pre, rest; reflexivity).
  rewrite Hc. unfold split. rewrite split_first by exact Hfirst.
  destruct Hrest as [->|Hb].
  - reflexivity.
  - apply prefix_begins in Hb. destruct rest as [|c rest]; [discriminate|].
    cbn [split_go]. rewrite Hb. reflexivity.
Qed.

Lemma status_range (response : option string) :
  match status_of_response response with
  | Ret None => response = None \/ response = Some EmptyString
  | Ret (Some v) =>
      In v [STATE_DISARMED; STATE_ARMED_AWAY; STATE_ARMED_HOME; STATE_ARMED_NIGHT;
            "unknown"]
  | Raise e => e = IndexError
  end.
Proof.
  unfold status_of_response.
  destruct response as [r|]; [|left; reflexivity].
  destruct r as [|c r]; [right; reflexivity|].
  cbn [truthy negb].
  destruct (contains "S=" (String c r)); [|cbn [In]; auto 6].
  unfold list_index.
  destruct (nth_error (split "S=" (String c r)) 1) as [piece|]; [|reflexivity].
  cbn [rbind]. destruct piece as [|d piece]; [reflexivity|].
  cbn [str_index0 rbind]. rewrite dict_get_state. unfold state_of_code.
  cbn [In].
  repeat (destruct (Ascii.eqb _ d); [auto 6|]). auto 6.
Qed.

(** X15.  The status extraction raises exactly when the text after the first
    "S=" of a result is empty or begins with another "S="; it then raises
    [IndexError], and it raises no other exception. *)
Theorem status_raises_iff (r : string) :
  (status_of_response (Some r) = Raise IndexError <->
   exists pre rest,
     r = (pre ++ "S=" ++ rest)%string /\ ~ occurs "S=" (pre ++ "S") /\
     (rest = EmptyString \/ begins "S=" rest)) /\
  (forall e, status_of_response (Some r) = Raise e -> e = IndexError).
Proof.
  split; [split|].
  - intros He.
    destruct (contains "S=" r) eqn:Hc.
    + destruct (first_occurrence r Hc) as (pre & rest & -> & Hno).
      exists pre, rest. split; [reflexivity|]. split; [exact Hno|].
      destruct rest as [|d rest]; [left; reflexivity|right].
      destruct (prefix "S=" (String d rest)) eqn:Hp.
      * apply prefix_begins. exact Hp.
      * rewrite status_first_code in He; [discriminate|exact Hno|].
        apply not_begins_by_test. exact Hp.
    + unfold status_of_response in He. rewrite Hc in He.
      destruct (negb (truthy (Some r))); discriminate.
  - intros (pre & rest & -> & Hno & Hrest).
    apply status_empty_piece; assumption.
  - intros e He. pose proof (status_range (Some r)) as H.
    rewrite He in H. exact H.
Qed.

Lemma status_raises_iff_witness :
  status_of_response (Some "ST,S=") = Raise IndexError.
Proof.
  apply (proj1 (status_raises_iff "ST,S=")).
  exists "ST,", EmptyString. split; [reflexivity|].
  split; [apply not_occurs_by_test; reflexivity|].
  left. reflexivity.
Defined.

(** X16.  [async_get_status] has three kinds of outcome, whatever the
    network does: [None]; one of the five state names "disarmed",
    "armed_away", "armed_home", "armed_night", "unknown"; or a raised
    [IndexError].  No other exception leaves it: network errors are absorbed
    by the retry loop. *)
Theorem get_status_outcomes (self : PimaProtocol) s :
  match returned (async_get_status self s) with
  | Ret None => True
  | Ret (Some v) =>
      In v [STATE_DISARMED; STATE_ARMED_AWAY; STATE_ARMED_HOME; STATE_ARMED_NIGHT;
            "unknown"]
  | Raise e => e = IndexError
  end.
Proof.
  destruct (connect_and_execute_facts self "SS=1" s) as (v & Hv & _).
  unfold async_get_status, bind.
  destruct (_connect_and_execute self "SS=1" s) as [[r t] s'].
  cbn [returned fst] in Hv. subst r. cbn [lift returned fst].
  pose proof (status_range v) as H.
  destruct (status_of_response v) as [[x|]|e]; auto.
Qed.


(** ** The logging helpers *)

Lemma length_append (a b : string) :
  String.length (a ++ b) = String.length a + String.length b.
Proof. induction a as [|c a IH]; cbn [append String.length]; [reflexivity|]. now rewrite IH. Qed.

Lemma length_substring_0 (n : nat) :
  forall s : string, String.length (substring 0 n s) = Nat.min n (String.length s).
Proof.
  induction n as [|n IH]; intros s; destruct s as [|c s];
    cbn [substring String.length Nat.min]; try reflexivity.
  now rewrite IH.
Qed.

Lemma shorten_length (short : string) : String.length (shorten short) <= 300.
Proof.
  unfold shorten.
  destruct (String.length short <=? 300)%nat eqn:E.
  - apply Nat.leb_le. exact E.
  - apply Nat.leb_gt in E.
    rewrite length_append, length_substring_0.
    change (String.length "...") with 3.
    rewrite Nat.min_l by lia.
    change (297 + 3 <= 300). lia.
Qed.

Lemma scrub_alike (v w : value) : alike v w -> _scrub_value v = _scrub_value w.
Proof.
  intros [->|(b & c & -> & -> & H)]; [reflexivity|].
  cbn [_scrub_value]. rewrite H. reflexivity.
Qed.

(** X17.  The text [_scrub_value] gives for a value that is not a byte string
    has at most 300 characters, however long the value's [repr] is. *)
Theorem scrub_value_bounded (short : string) :
  String.length (_scrub_value (VContainer short)) <= 300 /\
  String.length (_scrub_value (VOther short)) <= 300.
Proof. split; apply shorten_length. Qed.

(** X18.  [_format_args] shows nothing of the value of a parameter with a
    sensitive name, and of a byte string only its length: two lists of bound
    arguments with the same names in the same order, whose values differ
    only at sensitive names or are byte strings of equal length, are
    formatted to the same text. *)
Theorem format_args_hides_sensitive (bound bound' : list (string * value)) :
  Forall2 (fun item item' : string * value =>
             fst item = fst item' /\
             (sensitive (fst item) = true \/ alike (snd item) (snd item')))
          bound bound' ->
  _format_args bound = _format_args bound'.
Proof.
  intros H. unfold _format_args. f_equal.
  induction H as [|[n v] [n' v'] l l' (Hn & Hv) _ IH]; [reflexivity|].
  cbn [fst snd] in Hn, Hv. subst n'. cbn [map]. rewrite IH. f_equal.
  destruct (sensitive n); [reflexivity|].
  destruct Hv as [Hv|Hv]; [discriminate|].
  rewrite (scrub_alike _ _ Hv). reflexivity.
Qed.

Lemma format_args_hides_sensitive_witness :
  _format_args [("host", VOther "'192.168.1.250'"); ("alarm_code", VOther "'1234'");
                ("data", VBytes [x01; x02])] =
  _format_args [("host", VOther "'192.168.1.250'"); ("alarm_code", VOther "'9999'");
                ("data", VBytes [x03; x04])].
Proof.
  apply format_args_hides_sensitive.
  apply Forall2_cons; [split; [reflexivity|right; left; reflexivity]|].
  apply Forall2_cons; [split; [reflexivity|left; reflexivity]|].
  apply Forall2_cons; [split; [reflexivity|right; right]|apply Forall2_nil].
  exists [x01; x02], [x03; x04]. repeat split; reflexivity.
Defined.


(** ** Properties of the Home Assistant side *)

Lemma get_status_cases (self : PimaProtocol) s :
  (exists status t s',
      async_get_status self s = (Ret (Some status), t, s') /\
      In status [STATE_DISARMED; STATE_ARMED_AWAY; STATE_ARMED_HOME;
                 STATE_ARMED_NIGHT; "unknown"]) \/
  (exists t s', async_get_status self s = (Ret None, t, s')) \/
  (exists t s', async_get_status self s = (Raise IndexError, t, s')).
Proof.
  destruct (connect_and_execute_facts self "SS=1" s) as (v & Hv & _).
  unfold async_get_status, bind.
  destruct (_connect_and_execute self "SS=1" s) as [[r t] s'].
  cbn [returned fst] in Hv. subst r. cbn [lift].
  pose proof (status_range v) as H.
  destruct (status_of_response v) as [[x|]|e].
  - left. exists x, (t ++ []), s'. auto.
  - right. left. eauto.
  - right. right. subst e. eauto.
Qed.

(** X19.  A poll gives the coordinator either the data {"state": name},
    where [name] is the state name the status query returned, or
    [UpdateFailed] (when the query returned [None] or raised); and on such
    data the entity's [state] is the Home Assistant state of that name, and
    [None] for "unknown". *)
Theorem poll_then_state (protocol : PimaProtocol) (log : list ha_event) s :
  match outcome_of (_async_update_data protocol s) with
  | HRet data =>
      exists name,
        returned (async_get_status protocol s) = Ret (Some name) /\
        data = [("state", name)] /\
        (name = "disarmed" /\
         PimaAlarm_state (mkAlarm (Some data) log) = Some STATE_ALARM_DISARMED \/
         name = "armed_away" /\
         PimaAlarm_state (mkAlarm (Some data) log) = Some STATE_ALARM_ARMED_AWAY \/
         name = "armed_home" /\
         PimaAlarm_state (mkAlarm (Some data) log) = Some STATE_ALARM_ARMED_HOME \/
         name = "armed_night" /\
         PimaAlarm_state (mkAlarm (Some data) log) = Some STATE_ALARM_ARMED_NIGHT \/
         name = "unknown" /\
         PimaAlarm_state (mkAlarm (Some data) log) = None)
  | HRaise e =>
      e = UpdateFailed NoStatus /\
      returned (async_get_status protocol s) = Ret None \/
      e = UpdateFailed (Caught IndexError) /\
      returned (async_get_status protocol s) = Raise IndexError
  end.
Proof.
  unfold _async_update_data, outcome_of, returned.
  destruct (get_status_cases protocol s)
    as [(name & t & s' & -> & Hin)|[(t & s' & ->)|(t & s' & ->)]]; cbn [fst].
  - exists name. split; [reflexivity|]. split; [reflexivity|].
    cbn [In] in Hin.
    destruct Hin as [<-|[<-|[<-|[<-|[<-|[]]]]]]; auto 10.
  - left. auto.
  - right. auto.
Qed.

Lemma alarm_action_spec (self : PimaAlarm) (protocol : PimaProtocol)
    (command marker debug new_state error : string) s :
  exists after,
    returned (alarm_action self
                (response <- _connect_and_execute protocol command ;;
                 ret (acknowledged marker response))
                debug new_state error s) = Ret after /\
    ((exists r, returned (_connect_and_execute protocol command s) = Ret (Some r) /\
                occurs marker r) /\
     coordinator_data after = Some [("state", new_state)] /\
     ha_log after = ha_log self ++ [LogDebug debug; WriteHaState]
     \/
     ~ (exists r, returned (_connect_and_execute protocol command s) = Ret (Some r) /\
                  occurs marker r) /\
     coordinator_data after = coordinator_data self /\
     ha_log after = ha_log self ++ [LogDebug debug; LogError error]).
Proof.
  destruct (action_returns protocol command marker s) as (b & Hb & Hiff).
  unfold alarm_action.
  unfold bind at 1.
  destruct ((response <- _connect_and_execute protocol command ;;
             ret (acknowledged marker response)) s) as [[r t] s'].
  cbn [returned fst] in Hb. subst r. cbn [ret returned fst].
  eexists. split; [reflexivity|].
  destruct b; cbn [coordinator_data ha_log].
  - left. split; [apply Hiff; reflexivity|]. auto.
  - right. split; [|auto]. intros H. apply Hiff in H. discriminate.
Qed.

(** X20.  Each of the four service methods returns without raising.  When
    the panel acknowledged the command (the result of the exchange contains
    the method's marker), the coordinator's data becomes {"state": name}
    for the method's state name, the state is written once, and the entity's
    [state] then reads the matching Home Assistant state.  Otherwise the
    coordinator's data is left as it was and an error is logged. *)
Theorem alarm_action_then_state (self : PimaAlarm) (protocol : PimaProtocol) s :
  (exists after,
     returned (async_alarm_disarm self protocol s) = Ret after /\
     ((exists r, returned (_connect_and_execute protocol "DA=1" s) = Ret (Some r) /\
                 occurs "S=0" r) /\
      PimaAlarm_state after = Some STATE_ALARM_DISARMED /\
      ha_log after = ha_log self ++ [LogDebug "Disarming alarm"; WriteHaState]
      \/
      ~ (exists r, returned (_connect_and_execute protocol "DA=1" s) = Ret (Some r) /\
                   occurs "S=0" r) /\
      coordinator_data after = coordinator_data self /\
      ha_log after =
        ha_log self ++ [LogDebug "Disarming alarm"; LogError "Failed to disarm alarm"])) /\
  (exists after,
     returned (async_alarm_arm_away self protocol s) = Ret after /\
     ((exists r, returned (_connect_and_execute protocol "AR=1" s) = Ret (Some r) /\
                 occurs "S=1" r) /\
      PimaAlarm_state after = Some STATE_ALARM_ARMED_AWAY /\
      ha_log after = ha_log self ++ [LogDebug "Arming alarm (away)"; WriteHaState]
      \/
      ~ (exists r, returned (_connect_and_execute protocol "AR=1" s) = Ret (Some r) /\
                   occurs "S=1" r) /\
      coordinator_data after = coordinator_data self /\
      ha_log after =
        ha_log self ++
        [LogDebug "Arming alarm (away)"; LogError "Failed to arm alarm (away)"])) /\
  (exists after,
     returned (async_alarm_arm_home self protocol s) = Ret after /\
     ((exists r, returned (_connect_and_execute protocol "AR=2" s) = Ret (Some r) /\
                 occurs "S=2" r) /\
      PimaAlarm_state after = Some STATE_ALARM_ARMED_HOME /\
      ha_log after = ha_log self ++ [LogDebug "Arming alarm (home)"; WriteHaState]
      \/
      ~ (exists r, returned (_connect_and_execute protocol "AR=2" s) = Ret (Some r) /\
                   occurs "S=2" r) /\
      coordinator_data after = coordinator_data self /\
      ha_log after =
        ha_log self ++
        [LogDebug "Arming alarm (home)"; LogError "Failed to arm alarm (home)"])) /\
  (exists after,
     returned (async_alarm_arm_night self protocol s) = Ret after /\
     ((exists r, returned (_connect_and_execute protocol "AR=3" s) = Ret (Some r) /\
                 occurs "S=3" r) /\
      PimaAlarm_state after = Some STATE_ALARM_ARMED_NIGHT /\
      ha_log after = ha_log self ++ [LogDebug "Arming alarm (night)"; WriteHaState]
      \/
      ~ (exists r, returned (_connect_and_execute protocol "AR=3" s) = Ret (Some r) /\
                   occurs "S=3" r) /\
      coordinator_data after = coordinator_data self /\
      ha_log after =
        ha_log self ++
        [LogDebug "Arming alarm (night)"; LogError "Failed to arm alarm (night)"])).
Proof.
  unfold async_alarm_disarm, async_alarm_arm_away, async_alarm_arm_home,
    async_alarm_arm_night, async_disarm, async_arm_away, async_arm_home,
    async_arm_night.
  repeat split.
  - destruct (alarm_action_spec self protocol "DA=1" "S=0" "Disarming alarm"
                "disarmed" "Failed to disarm alarm" s)
      as (after & Hr & [(Hack & Hd & Hl)|(Hno & Hd & Hl)]);
      exists after; (split; [exact Hr|]); [left|right]; repeat split; auto.
    unfold PimaAlarm_state. rewrite Hd. reflexivity.
  - destruct (alarm_action_spec self protocol "AR=1" "S=1" "Arming alarm (away)"
                "armed_away" "Failed to arm alarm (away)" s)
      as (after & Hr & [(Hack & Hd & Hl)|(Hno & Hd & Hl)]);
      exists after; (split; [exact Hr|]); [left|right]; repeat split; auto.
    unfold PimaAlarm_state. rewrite Hd. reflexivity.
  - destruct (alarm_action_spec self protocol "AR=2" "S=2" "Arming alarm (home)"
                "armed_home" "Failed to arm alarm (home)" s)
      as (after & Hr & [(Hack & Hd & Hl)|(Hno & Hd & Hl)]);
      exists after; (split; [exact Hr|]); [left|right]; repeat split; auto.
    unfold PimaAlarm_state. rewrite Hd. reflexivity.
  - destruct (alarm_action_spec self protocol "AR=3" "S=3" "Arming alarm (night)"
                "armed_night" "Failed to arm alarm (night)" s)
      as (after & Hr & [(Hack & Hd & Hl)|(Hno & Hd & Hl)]);
      exists after; (split; [exact Hr|]); [left|right]; repeat split; auto.
    unfold PimaAlarm_state. rewrite Hd. reflexivity.
Qed.

Lemma get_status_bad_code (self : PimaProtocol) s :
  forallb is_ascii (list_ascii_of_string (alarm_code self)) = false ->
  exists t s', async_get_status self s = (Ret None, t, s').
Proof.
  intros Hbad.
  destruct (connect_and_execute_bad_code self "SS=1" s Hbad) as (Hr & _).
  unfold async_get_status, bind.
  destruct (_connect_and_execute self "SS=1" s) as [[r t] s'].
  cbn [returned fst] in Hr. subst r. cbn [status_of_response lift]. eauto.
Qed.

(** X21.  The user step of the config flow never raises.  With an input it
    creates the entry, titled "PIMA Alarm (host)" and holding the input
    unchanged, exactly when the status query returned a state name; it shows
    the form again with the error "cannot_connect" when the query returned
    [None] and with "unknown" when the query raised. *)
Theorem config_flow_outcomes (data : user_input) s :
  (exists name,
     returned (async_get_status
                 (__init__ (CONF_HOST data) (CONF_PORT data) (CONF_ALARM_CODE data)) s)
       = Ret (Some name) /\
     outcome_of (async_step_user (Some data) s) =
       HRet (CreateEntry ("PIMA Alarm (" ++ CONF_HOST data ++ ")") data)) \/
  (returned (async_get_status
               (__init__ (CONF_HOST data) (CONF_PORT data) (CONF_ALARM_CODE data)) s)
     = Ret None /\
   outcome_of (async_step_user (Some data) s) =
     HRet (ShowForm "user" [("base", "cannot_connect")])) \/
  (returned (async_get_status
               (__init__ (CONF_HOST data) (CONF_PORT data) (CONF_ALARM_CODE data)) s)
     = Raise IndexError /\
   outcome_of (async_step_user (Some data) s) =
     HRet (ShowForm "user" [("base", "unknown")])).
Proof.
  unfold async_step_user, validate_input, outcome_of, returned.
  destruct (get_status_cases
              (__init__ (CONF_HOST data) (CONF_PORT data) (CONF_ALARM_CODE data)) s)
    as [(name & t & s' & -> & _)|[(t & s' & ->)|(t & s' & ->)]]; cbn [fst].
  - left. exists name. split; reflexivity.
  - right. left. split; reflexivity.
  - right. right. split; reflexivity.
Qed.

(** X22.  An alarm code with a character outside ASCII is answered by
    "cannot_connect", whatever the network does: the user step shows the
    form again with this error and creates no entry; and a poll with such a
    code raises [UpdateFailed]. *)
Theorem config_flow_non_ascii_code (data : user_input) s :
  forallb is_ascii (list_ascii_of_string (CONF_ALARM_CODE data)) = false ->
  outcome_of (async_step_user (Some data) s) =
    HRet (ShowForm "user" [("base", "cannot_connect")]) /\
  outcome_of (_async_update_data
                (__init__ (CONF_HOST data) (CONF_PORT data) (CONF_ALARM_CODE data)) s) =
    HRaise (UpdateFailed NoStatus).
Proof.
  intros Hbad.
  destruct (get_status_bad_code
              (__init__ (CONF_HOST data) (CONF_PORT data) (CONF_ALARM_CODE data)) s Hbad)
    as (t & s' & H).
  unfold async_step_user, validate_input, _async_update_data, outcome_of.
  rewrite H. split; reflexivity.
Qed.

Lemma config_flow_non_ascii_code_witness :
  outcome_of (async_step_user
                (Some (mkInput "192.168.1.250" 10150 (String (ascii_of_nat 233) "234") 600))
                (fresh [])) =
    HRet (ShowForm "user" [("base", "cannot_connect")]).
Proof.
  apply (config_flow_non_ascii_code
           (mkInput "192.168.1.250" 10150 (String (ascii_of_nat 233) "234") 600)
           (fresh [])).
  reflexivity.
Defined.

(** ** A cooperating panel *)

Lemma panel_frame_decodes (p : string) (data : bytes) :
  encode_ascii p = Ret data -> 2 <= String.length p ->
  _parse_response (panel_frame p) = Ret (Some p).
Proof.
  intros Henc Hlen. unfold panel_frame. rewrite Henc.
  rewrite response_frame_decodes.
  - replace (bytes_eqb (crc_bytes data) (crc_bytes data)) with true
      by (symmetry; apply bytes_eqb_eq; reflexivity).
    now rewrite (decode_encode _ _ Henc).
  - rewrite (encode_ascii_length _ _ Henc). exact Hlen.
  - exact (encode_ascii_no_flag _ _ Henc).
  - reflexivity.
Qed.

Lemma panel_frame_length (p : string) (data : bytes) :
  encode_ascii p = Ret data -> List.length (panel_frame p) = String.length p + 4.
Proof.
  intros Henc. unfold panel_frame. rewrite Henc.
  unfold FRAME_START, FRAME_END, crc_bytes.
  cbn [app List.length]. rewrite length_app, (encode_ascii_length _ _ Henc).
  cbn [List.length]. lia.
Qed.

Lemma login_reply_accepted :
  _parse_response (firstn 1024 (panel_frame "R=1")) = Ret (Some "R=1").
Proof. vm_compute. reflexivity. Qed.

Lemma disconnect_frame : exists f, _create_command "DC=1" = Ret f.
Proof. eexists. vm_compute. reflexivity. Qed.

(** One pass with the knocks, the connection and the login accepted, the
    panel answering the command with [response]. *)
Lemma iteration_answered (self : PimaProtocol) (command : string) (attempt : nat)
    (f_login f_cmd f_dc response : bytes) (result : option string)
    (rest : list outcome) :
  _create_command ("PW=" ++ alarm_code self) = Ret f_login ->
  _create_command command = Ret f_cmd ->
  _create_command "DC=1" = Ret f_dc ->
  _parse_response (firstn 1024 response) = Ret result ->
  exists t s',
    iteration self command attempt (fresh (script_answer response ++ rest)) =
      (Ret (FReturn result), t, s') /\
    attempts_made t = 1 /\ results_logged t = [result] /\
    tcp_sends t = [f_login; f_cmd; f_dc] /\
    open_after [] t = [] /\ failures t = 0 /\ slept t = [100; 100; 1000] /\
    pending s' = rest.
Proof.
  intros Hlogin Hcmd Hdc Hresp.
  unfold iteration, session, _send_udp_knocks, UDP_KNOCKS, fresh, script_answer,
    login_with, knocks_ok.
  cbv beta iota zeta delta
    [app bind set_sock try_except emit sleep io tcp_socket tcp_recv ret lift
     send_knocks pending sock next_id].
  rewrite Hlogin.
  cbv beta iota zeta delta
    [app bind set_sock try_except emit sleep io tcp_socket tcp_recv ret lift
     send_knocks pending sock next_id].
  rewrite login_reply_accepted.
  replace (negb (truthy (Some "R=1")) || negb (contains "R=1" "R=1")) with false
    by reflexivity.
  cbv beta iota zeta delta
    [app bind set_sock try_except emit sleep io tcp_socket tcp_recv ret lift
     send_knocks pending sock next_id].
  rewrite Hcmd.
  cbv beta iota zeta delta
    [app bind set_sock try_except emit sleep io tcp_socket tcp_recv ret lift
     send_knocks pending sock next_id].
  rewrite Hresp.
  cbv beta iota zeta delta
    [app bind set_sock try_except emit sleep io tcp_socket tcp_recv ret lift
     send_knocks pending sock next_id].
  rewrite Hdc.
  cbv beta iota zeta delta
    [app bind set_sock try_except emit sleep io tcp_socket tcp_recv ret lift
     send_knocks pending sock next_id].
  do 2 eexists. split; [reflexivity|].
  cbn [attempts_made results_logged tcp_sends open_after failures slept pending app].
  repeat split; try reflexivity.
Qed.

Lemma create_command_returns (command : string) :
  forallb is_ascii (list_ascii_of_string command) = true ->
  exists f, _create_command command = Ret f.
Proof.
  intros H. unfold _create_command.
  rewrite (encode_ascii_ascii _ H). cbn [rbind].
  rewrite calculate_crc_returns. cbn [rbind]. eauto.
Qed.

Lemma login_command_ascii (code : string) :
  forallb is_ascii (list_ascii_of_string code) = true ->
  forallb is_ascii (list_ascii_of_string ("PW=" ++ code)) = true.
Proof. intros H. cbn [append list_ascii_of_string forallb]. rewrite H. reflexivity. Qed.

Lemma connect_and_execute_answered (self : PimaProtocol) (command p : string)
    (rest : list outcome) :
  1 <= retry_attempts self ->
  forallb is_ascii (list_ascii_of_string (alarm_code self)) = true ->
  forallb is_ascii (list_ascii_of_string command) = true ->
  forallb is_ascii (list_ascii_of_string p) = true ->
  2 <= String.length p <= 1020 ->
  exists t s',
    _connect_and_execute self command (fresh (script_answer (panel_frame p) ++ rest)) =
      (Ret (Some p), t, s') /\
    attempts_made t = 1 /\
    map Ret (tcp_sends t) = session_frames self command /\
    open_after [] t = [] /\ failures t = 0 /\ slept t = [100; 100; 1000] /\
    pending s' = rest.
Proof.
  intros Hn Hcode Hcmd Hp Hlen.
  destruct (create_command_returns _ (login_command_ascii _ Hcode)) as (f_login & Hl).
  destruct (create_command_returns _ Hcmd) as (f_cmd & Hc).
  destruct disconnect_frame as (f_dc & Hd).
  pose proof (encode_ascii_ascii _ Hp) as Henc.
  assert (Hresp : _parse_response (firstn 1024 (panel_frame p)) = Ret (Some p)).
  { rewrite firstn_all2.
    - eapply panel_frame_decodes; [exact Henc|lia].
    - rewrite (panel_frame_length _ _ Henc). lia. }
  destruct (iteration_answered self command 0 _ _ _ _ _ rest Hl Hc Hd Hresp)
    as (t & s' & Hi & Ha & _ & Hs & Ho & Hf & Hz & Hrest).
  unfold _connect_and_execute.
  destruct (retry_attempts self) as [|n] eqn:En; [lia|].
  cbn [seq for_attempts]. unfold bind at 1. rewrite Hi.
  cbv beta iota zeta delta [ret].
  exists (t ++ []), s'. rewrite app_nil_r.
  repeat split; auto.
  rewrite Hs. unfold session_frames. rewrite Hl, Hc, Hd. reflexivity.
Qed.

(** X23.  With a cooperating panel one attempt is enough: when the wake
    sequence, the connection and the sends succeed, the panel accepts the
    login and answers the command with a frame carrying an ASCII text of 2
    to 1020 characters, [_connect_and_execute] returns that text after a
    single attempt, having sent the login, command and disconnect frames and
    closed its socket, without backoff. *)
Theorem exchange_succeeds (self : PimaProtocol) (command p : string)
    (rest : list outcome) :
  1 <= retry_attempts self ->
  forallb is_ascii (list_ascii_of_string (alarm_code self)) = true ->
  forallb is_ascii (list_ascii_of_string command) = true ->
  forallb is_ascii (list_ascii_of_string p) = true ->
  2 <= String.length p <= 1020 ->
  returned (_connect_and_execute self command
              (fresh (script_answer (panel_frame p) ++ rest))) = Ret (Some p) /\
  attempts_made (effects (_connect_and_execute self command
              (fresh (script_answer (panel_frame p) ++ rest)))) = 1 /\
  map Ret (tcp_sends (effects (_connect_and_execute self command
              (fresh (script_answer (panel_frame p) ++ rest))))) =
    session_frames self command /\
  open_sockets (effects (_connect_and_execute self command
              (fresh (script_answer (panel_frame p) ++ rest)))) = [] /\
  slept (effects (_connect_and_execute self command
              (fresh (script_answer (panel_frame p) ++ rest)))) = [100; 100; 1000].
Proof.
  intros Hn Hcode Hcmd Hp Hlen.
  destruct (connect_and_execute_answered self command p rest Hn Hcode Hcmd Hp Hlen)
    as (t & s' & -> & Ha & Hs & Ho & _ & Hz & _).
  unfold returned, effects, open_sockets. cbn [fst snd]. auto.
Qed.

Lemma exchange_succeeds_witness :
  returned (_connect_and_execute panel "AR=1"
              (fresh (script_answer (panel_frame "S=1") ++ []))) = Ret (Some "S=1").
Proof.
  apply (exchange_succeeds panel "AR=1" "S=1" []).
  - vm_compute. lia.
  - reflexivity.
  - reflexivity.
  - reflexivity.
  - cbn [String.length]. lia.
Defined.

(** X24.  End to end, the panel's state code becomes the state name: when a
    cooperating panel answers the status command with an ASCII text whose
    first "S=" is followed by a character [d] that does not begin another
    "S=", [async_get_status] returns the table's name for [d], "unknown"
    when [d] is not in the table. *)
Theorem status_query_succeeds (self : PimaProtocol) (pre tail : string) (d : ascii)
    (rest : list outcome) :
  1 <= retry_attempts self ->
  forallb is_ascii (list_ascii_of_string (alarm_code self)) = true ->
  forallb is_ascii (list_ascii_of_string (pre ++ "S=" ++ String d tail)) = true ->
  String.length (pre ++ "S=" ++ String d tail) <= 1020 ->
  ~ occurs "S=" (pre ++ "S") -> ~ begins "S=" (String d tail) ->
  returned (async_get_status self
              (fresh (script_answer (panel_frame (pre ++ "S=" ++ String d tail)) ++ rest)))
  = Ret (Some (state_of_code d)).
Proof.
  intros Hn Hcode Hp Hlen Hfirst Hnext.
  assert (Hlen2 : 2 <= String.length (pre ++ "S=" ++ String d tail) <= 1020).
  { split; [|exact Hlen]. rewrite !length_append. cbn [String.length]. lia. }
  destruct (connect_and_execute_answered self "SS=1" _ rest Hn Hcode eq_refl Hp Hlen2)
    as (t & s' & Hrun & _).
  unfold async_get_status, bind. rewrite Hrun.
  rewrite (status_first_code _ _ _ Hfirst Hnext). reflexivity.
Qed.

Lemma status_query_succeeds_witness :
  returned (async_get_status panel
              (fresh (script_answer (panel_frame ("ST," ++ "S=" ++ String "2" EmptyString)) ++ [])))
  = Ret (Some "armed_home").
Proof.
  apply (status_query_succeeds panel "ST," EmptyString "2" []).
  - vm_compute. lia.
  - reflexivity.
  - reflexivity.
  - cbn [append String.length]. lia.
  - apply not_occurs_by_test. reflexivity.
  - apply not_begins_by_test. reflexivity.
Defined.
